(** * anyrouter-proxy: request/response transforms and the SSE relay

    A shallow embedding of [transform.ts] (name map, sanitiser, request and
    response transforms, SSE line rewrite) and of the request augmenters and
    the streaming relay of [server.ts].

    Conventions of the embedding.
    - A JavaScript value is a [value]; an object is the list of its own
      enumerable properties in enumeration order, and a property write
      [o[k] = v] is [obj_set] (update in place, or append a new key).  The
      program mutates the parsed body in place; the body is a tree that
      nothing else refers to, so each function takes the body and returns
      the body after its writes.
    - A string is a [string] holding the text in UTF-8; numbers are
      integers.
    - A function that can raise [TypeError] returns [option]; [None] is the
      exception.
    - What the JavaScript platform supplies ([JSON.parse], [JSON.stringify],
      the coercions of [join] and [<], Unicode case mapping outside ASCII)
      is a field of the class [Platform], and the properties are proved for
      every platform.  [Buffer.prototype.toString] is written out, after
      the Encoding Standard. *)

From Stdlib Require Import List String Ascii ZArith Bool Lia Arith DecimalString.
Import ListNotations.
Open Scope string_scope.

(** ** Values *)

Unset Elimination Schemes.
Inductive value : Type :=
| VUndefined
| VNull
| VBool (b : bool)
| VNum (n : Z)
| VStr (s : string)
| VArr (items : list value)
| VObj (props : list (string * value))
| VNative (member : string).
Set Elimination Schemes.

(** [VNative m] is the member [m] that every plain object inherits from
    [Object.prototype] (a function, or the prototype itself for
    [__proto__]).  Parsed JSON never contains one; a property read with a
    computed key can produce one. *)

Definition obj := list (string * value).

(** Induction over the nesting of arrays and objects. *)
Definition value_ind (P : value -> Prop)
  (Hundef : P VUndefined) (Hnull : P VNull)
  (Hbool : forall b, P (VBool b)) (Hnum : forall n, P (VNum n))
  (Hstr : forall s, P (VStr s))
  (Harr : forall items, Forall P items -> P (VArr items))
  (Hobj : forall props, Forall (fun kv => P (snd kv)) props -> P (VObj props))
  (Hnat : forall m, P (VNative m)) : forall v, P v :=
  fix go (v : value) : P v :=
    match v with
    | VUndefined => Hundef
    | VNull => Hnull
    | VBool b => Hbool b
    | VNum n => Hnum n
    | VStr s => Hstr s
    | VArr items =>
        Harr items
          ((fix all (l : list value) : Forall P l :=
              match l with
              | [] => Forall_nil _
              | x :: l' => Forall_cons x (go x) (all l')
              end) items)
    | VObj props =>
        Hobj props
          ((fix all (l : obj) : Forall (fun kv => P (snd kv)) l :=
              match l with
              | [] => Forall_nil _
              | kv :: l' => Forall_cons kv (go (snd kv)) (all l')
              end) props)
    | VNative m => Hnat m
    end.

(** [!v]: the falsy values are undefined, null, false, 0 and the empty
    string. *)
Definition truthy (v : value) : bool :=
  match v with
  | VUndefined | VNull => false
  | VBool b => b
  | VNum n => negb (n =? 0)%Z
  | VStr s => negb (s =? "")
  | VArr _ | VObj _ | VNative _ => true
  end.

(** [v === "lit"]. *)
Definition is_str (v : value) (lit : string) : bool :=
  match v with
  | VStr s => s =? lit
  | _ => false
  end.

(** [a ?? b]. *)
Definition nullish_or (a b : value) : value :=
  match a with
  | VUndefined | VNull => b
  | _ => a
  end.

(** *** Own properties *)

Fixpoint obj_get (o : obj) (k : string) : value :=
  match o with
  | [] => VUndefined
  | (k', v) :: o' => if k' =? k then v else obj_get o' k
  end.

Fixpoint obj_set (o : obj) (k : string) (v : value) : obj :=
  match o with
  | [] => [(k, v)]
  | (k', v') :: o' =>
      if k' =? k then (k', v) :: o' else (k', v') :: obj_set o' k v
  end.

(** [v.k] for one of the fixed property names this program reads ([type],
    [name], [role], ...): reading from undefined or null raises; an object
    answers with its own property; no other kind of value has such a
    property. *)
Definition get_prop (v : value) (k : string) : option value :=
  match v with
  | VUndefined | VNull => None
  | VObj o => Some (obj_get o k)
  | _ => Some VUndefined
  end.

(** [v?.k]. *)
Definition get_opt (v : value) (k : string) : value :=
  match v with
  | VObj o => obj_get o k
  | _ => VUndefined
  end.

(** *** Strings *)

(** [s.includes(p)]. *)
Fixpoint includes (p s : string) : bool :=
  prefix p s ||
  match s with
  | "" => false
  | String _ s' => includes p s'
  end.

Definition is_ascii_lower (c : ascii) : bool :=
  ((97 <=? nat_of_ascii c) && (nat_of_ascii c <=? 122))%nat.

Definition is_ascii_upper (c : ascii) : bool :=
  ((65 <=? nat_of_ascii c) && (nat_of_ascii c <=? 90))%nat.

Definition ascii_upper (c : ascii) : ascii :=
  if is_ascii_lower c then ascii_of_nat (nat_of_ascii c - 32) else c.

Definition ascii_lower (c : ascii) : ascii :=
  if is_ascii_upper c then ascii_of_nat (nat_of_ascii c + 32) else c.

(** [s.toLowerCase()], on the ASCII letters.  The patterns it is matched
    against are ASCII, and no character outside ASCII lower-cases to one of
    their letters, so the outcome of [includes] is that of the code. *)
Fixpoint toLowerCase (s : string) : string :=
  match s with
  | "" => ""
  | String c s' => String (ascii_lower c) (toLowerCase s')
  end.

Definition is_ascii (c : ascii) : bool := (nat_of_ascii c <? 128)%nat.

(** The number of bytes of the white-space character that [s] starts with
    (0 when it starts with none).  White space for [String.prototype.trim]
    is U+0009 to U+000D, U+0020, U+00A0, U+1680, U+2000 to U+200A, U+2028,
    U+2029, U+202F, U+205F, U+3000 and U+FEFF. *)
Definition space_width (s : string) : nat :=
  match s with
  | "" => 0
  | String c0 s1 =>
      let b0 := nat_of_ascii c0 in
      if ((b0 =? 32) || ((9 <=? b0) && (b0 <=? 13)))%nat then 1
      else
        match s1 with
        | "" => 0
        | String c1 s2 =>
            let b1 := nat_of_ascii c1 in
            if ((b0 =? 194) && (b1 =? 160))%nat then 2
            else
              match s2 with
              | "" => 0
              | String c2 _ =>
                  let b2 := nat_of_ascii c2 in
                  if (((b0 =? 225) && (b1 =? 154) && (b2 =? 128))
                      || ((b0 =? 226) && (b1 =? 128)
                          && (((128 <=? b2) && (b2 <=? 138))
                              || (b2 =? 168) || (b2 =? 169) || (b2 =? 175)))
                      || ((b0 =? 226) && (b1 =? 129) && (b2 =? 159))
                      || ((b0 =? 227) && (b1 =? 128) && (b2 =? 128))
                      || ((b0 =? 239) && (b1 =? 187) && (b2 =? 191)))%nat
                  then 3
                  else 0
              end
        end
  end.

(** [skip] counts the bytes still to drop of the white-space character
    being removed. *)
Fixpoint trim_start_from (skip : nat) (s : string) : string :=
  match skip, s with
  | S k, String _ s' => trim_start_from k s'
  | S _, "" => ""
  | O, "" => ""
  | O, String _ s' =>
      match space_width s with
      | O => s
      | S k => trim_start_from k s'
      end
  end.

Definition trim_start (s : string) : string := trim_start_from 0 s.

Definition is_blank (s : string) : bool := trim_start s =? "".

Fixpoint trim_end (s : string) : string :=
  match s with
  | "" => ""
  | String c s' => if is_blank s then "" else String c (trim_end s')
  end.

(** [s.trim()]. *)
Definition trim (s : string) : string := trim_end (trim_start s).

(** [s.slice(n)] for [n] within the string. *)
Fixpoint slice (n : nat) (s : string) : string :=
  match n, s with
  | O, _ => s
  | S n', String _ s' => slice n' s'
  | S _, "" => ""
  end.

(** ** The platform *)

Class Platform : Type := {
  (** [JSON.parse]; [None] is a [SyntaxError]. *)
  JSON_parse : string -> option value;
  (** [JSON.stringify] of an object. *)
  JSON_stringify : value -> string;
  (** String coercion of an array element in [Array.prototype.join];
      [None] when the coercion raises. *)
  ToString : value -> option string;
  (** [v < n] for a [v] that is not a number (the operand is coerced);
      [None] when the coercion raises. *)
  lt_coerced : value -> Z -> option bool;
  (** [s.charAt(0).toUpperCase() + s.slice(1)] for an [s] whose first
      character is not ASCII (Unicode case mapping). *)
  capitalize_nonascii : string -> string
}.

(** ** transform.ts *)

Definition NAME_MAP : obj :=
  [ ("todowrite", VStr "TodoWrite");
    ("webfetch", VStr "WebFetch");
    ("google_search", VStr "Google_Search") ].

Definition BUILTIN_TOOL_TYPES : list string :=
  [ "web_search"; "computer"; "text_editor"; "bash"; "code_execution";
    "memory"; "web_fetch"; "tool_search" ].

Definition UNDEFINED_MARK : string := "[undefined]".

(** The property names every plain object inherits from
    [Object.prototype]. *)
Definition OBJECT_PROTOTYPE : list string :=
  [ "constructor"; "__defineGetter__"; "__defineSetter__"; "hasOwnProperty";
    "__lookupGetter__"; "__lookupSetter__"; "isPrototypeOf";
    "propertyIsEnumerable"; "toString"; "valueOf"; "__proto__";
    "toLocaleString" ].

Fixpoint has_own (o : obj) (k : string) : bool :=
  match o with
  | [] => false
  | (k', _) :: o' => (k' =? k) || has_own o' k
  end.

Definition mem_string (k : string) (l : list string) : bool :=
  existsb (String.eqb k) l.

(** [o[k]] with a computed key [k] on an object literal: the own property
    when there is one, otherwise what the prototype chain answers. *)
Definition obj_lookup (o : obj) (k : string) : value :=
  if has_own o k then obj_get o k
  else if mem_string k OBJECT_PROTOTYPE then VNative k
  else VUndefined.

(** [tool.type] is a non-empty string starting with a builtin prefix.
    Reading [type] from null or undefined raises. *)
Definition isBuiltinTool (tool : value) : option bool :=
  match get_prop tool "type" with
  | None => None
  | Some (VStr ty) =>
      Some (negb (ty =? "") && existsb (fun p => prefix p ty) BUILTIN_TOOL_TYPES)
  | Some _ => Some false
  end.

(** [name.charAt(0).toUpperCase() + name.slice(1)]. *)
Definition capitalize `{Platform} (name : string) : string :=
  match name with
  | "" => ""
  | String c rest =>
      if is_ascii c then String (ascii_upper c) rest
      else capitalize_nonascii name
  end.

Definition mapName `{Platform} (name : value) : value :=
  match name with
  | VStr s =>
      if negb (truthy name) then name
      else if truthy (obj_lookup NAME_MAP s) then obj_lookup NAME_MAP s
      else VStr (capitalize s)
  | _ => name
  end.

Definition keep_item (item : value) : bool := negb (is_str item UNDEFINED_MARK).

(** The assignment [cleaned[key] = ...] is the own-property write
    [obj_set] for every key but [__proto__], which the setter inherited
    from [Object.prototype] intercepts; the structural results below are
    stated for trees without that key. *)
Fixpoint cleanUndefined (obj : value) : value :=
  match obj with
  | VArr items =>
      VArr ((fix kept (l : list value) : list value :=
               match l with
               | [] => []
               | item :: l' =>
                   if keep_item item then cleanUndefined item :: kept l'
                   else kept l'
               end) items)
  | VObj props =>
      VObj (fold_left
              (fun cleaned kv =>
                 if is_str (snd kv) UNDEFINED_MARK then cleaned
                 else obj_set cleaned (fst kv) (cleanUndefined (snd kv)))
              props [])
  | _ => obj
  end.

(** *** Exceptions *)

Definition bind {A B : Type} (m : option A) (k : A -> option B) : option B :=
  match m with
  | Some a => k a
  | None => None
  end.

Notation "x <- m ;; k" := (bind m (fun x => k))
  (at level 61, m at next level, right associativity).

(** [l.forEach(f)] / [l.map(f)] with an [f] that may raise. *)
Fixpoint mapM {A B : Type} (f : A -> option B) (l : list A) : option (list B) :=
  match l with
  | [] => Some []
  | x :: l' => y <- f x ;; ys <- mapM f l' ;; Some (y :: ys)
  end.

(** *** Request body: tool names *)

(** The body of [body.tools.forEach]. *)
Definition transformTool `{Platform} (tool : value) : option value :=
  builtin <- isBuiltinTool tool ;;
  if builtin then Some tool
  else
    match tool with
    | VObj t =>
        if truthy (obj_get t "name")
        then Some (VObj (obj_set t "name"
                           (nullish_or (mapName (obj_get t "name"))
                                       (obj_get t "name"))))
        else Some tool
    | _ => Some tool
    end.

(** The body of [message.content.forEach]. *)
Definition transformBlock `{Platform} (block : value) : value :=
  match block with
  | VObj b =>
      if is_str (obj_get b "type") "tool_use" && truthy (obj_get b "name")
      then VObj (obj_set b "name"
                   (nullish_or (mapName (obj_get b "name")) (obj_get b "name")))
      else block
  | _ => block
  end.

(** The body of [body.messages.forEach]. *)
Definition transformMessage `{Platform} (message : value) : value :=
  match message with
  | VObj m =>
      match obj_get m "content" with
      | VArr blocks => VObj (obj_set m "content" (VArr (map transformBlock blocks)))
      | _ => message
      end
  | _ => message
  end.

Definition transformRequestBody `{Platform} (body : value) : option value :=
  match body with
  | VObj b =>
      b1 <- match obj_get b "tools" with
            | VArr tools =>
                tools' <- mapM transformTool tools ;;
                Some (obj_set b "tools" (VArr tools'))
            | _ => Some b
            end ;;
      Some (VObj
              match obj_get b1 "messages" with
              | VArr messages =>
                  obj_set b1 "messages" (VArr (map transformMessage messages))
              | _ => b1
              end)
  | _ => Some body
  end.

(** *** Response body: stringified arrays and objects *)

Definition looks_structured (s : string) : bool :=
  prefix "[" s || prefix "{" s.

(** The body of the loop over [Object.keys(block.input)]. *)
Definition repairKey `{Platform} (input : obj) (key : string) : obj :=
  match obj_get input key with
  | VStr s =>
      if looks_structured s then
        match JSON_parse s with
        | Some parsed => obj_set input key parsed
        | None => input
        end
      else input
  | _ => input
  end.

Definition repairInput `{Platform} (input : obj) : obj :=
  fold_left repairKey (map fst input) input.

(** The same loop body on an element of an array-valued [input] (the keys
    of an array are its indices). *)
Definition repairValue `{Platform} (v : value) : value :=
  match v with
  | VStr s =>
      if looks_structured s then
        match JSON_parse s with
        | Some parsed => parsed
        | None => v
        end
      else v
  | _ => v
  end.

Definition repairBlock `{Platform} (block : value) : value :=
  match block with
  | VObj b =>
      if is_str (obj_get b "type") "tool_use" then
        match obj_get b "input" with
        | VObj input => VObj (obj_set b "input" (VObj (repairInput input)))
        | VArr items => VObj (obj_set b "input" (VArr (map repairValue items)))
        | _ => block
        end
      else block
  | _ => block
  end.

Definition transformResponseBody `{Platform} (body : value) : value :=
  match body with
  | VObj b =>
      match obj_get b "content" with
      | VArr blocks => VObj (obj_set b "content" (VArr (map repairBlock blocks)))
      | _ => body
      end
  | _ => body
  end.

(** *** One line of the event stream *)

(** The test of the [if] inside the [try]; [None] when reading [data.type]
    raises. *)
Definition is_tool_use_start (data : value) : option bool :=
  ty <- get_prop data "type" ;;
  Some (is_str ty "content_block_start"
        && is_str (get_opt (get_opt data "content_block") "type") "tool_use"
        && truthy (get_opt (get_opt data "content_block") "name")).

(** [data.content_block.name = mapName(...) ?? ...]. *)
Definition rename_content_block `{Platform} (data : value) : value :=
  match data, get_opt data "content_block" with
  | VObj d, VObj cb =>
      VObj (obj_set d "content_block"
              (VObj (obj_set cb "name"
                       (nullish_or (mapName (obj_get cb "name"))
                                   (obj_get cb "name")))))
  | _, _ => data
  end.

Definition transformSSELine `{Platform} (line : string) : string :=
  if negb (prefix "data:" line) then line
  else
    let jsonStr := trim (slice 5 line) in
    if (jsonStr =? "") || (jsonStr =? "[DONE]") then line
    else
      match JSON_parse jsonStr with
      | None => line
      | Some data =>
          match is_tool_use_start data with
          | Some true => "data: " ++ JSON_stringify (rename_content_block data)
          | Some false => line
          | None => line
          end
      end.

(** ** server.ts *)

Definition LF : string := String "010" "".

Definition ephemeral : value := VObj [("type", VStr "ephemeral")].

Definition IDENTITY_TEXT : string :=
  "You are Claude Code, Anthropic's official CLI for Claude.".

Definition PREAMBLE_TEXT : string :=
  "You are an interactive CLI tool that helps users with software engineering tasks. Use the instructions below and the tools available to you to assist the user."
  ++ LF ++ LF ++ "# Tone and style"
  ++ LF ++ "- Only use emojis if the user explicitly requests it. Avoid using emojis in all communication unless asked."
  ++ LF ++ "- Your output will be displayed on a command line interface. Your responses should be short and concise. You can use Github-flavored markdown for formatting, and will be rendered in a monospace font using the CommonMark specification."
  ++ LF ++ "- Output text to communicate with the user; all text you output outside of tool use is displayed to the user. Only use tools to complete tasks. Never use tools like Bash or code comments as means to communicate with the user during the session."
  ++ LF ++ LF ++ "# Doing tasks"
  ++ LF ++ "The user will primarily request you perform software engineering tasks. This includes solving bugs, adding new functionality, refactoring code, explaining code, and more."
  ++ LF ++ LF ++ "Here is useful information about the environment you are running in:"
  ++ LF ++ "<env>"
  ++ LF ++ "Platform: win32"
  ++ LF ++ "Shell: bash"
  ++ LF ++ "</env>".

Definition CLAUDE_CODE_SYSTEM : value :=
  VArr
    [ VObj [("type", VStr "text"); ("text", VStr IDENTITY_TEXT);
            ("cache_control", ephemeral)];
      VObj [("type", VStr "text"); ("text", VStr PREAMBLE_TEXT);
            ("cache_control", ephemeral)] ].

Definition CLAUDE_46_PATTERNS : list string :=
  [ "claude-opus-4"; "claude-4-opus"; "claude-opus-4-6" ].

Definition CLAUDE_THINKING_PATTERNS : list string :=
  [ "claude-3-5-sonnet"; "claude-3.5-sonnet"; "claude-3-7-sonnet";
    "claude-3.7-sonnet"; "claude-4"; "claude-sonnet-4"; "claude-opus-4" ].

Definition DEFAULT_THINKING_BUDGET : Z := 10000.

(** [PATTERNS.some((p) => modelId.toLowerCase().includes(p))]; calling
    [toLowerCase] on anything but a string raises. *)
Definition matches_patterns (patterns : list string) (modelId : value)
  : option bool :=
  match modelId with
  | VStr s =>
      let lower := toLowerCase s in
      Some (existsb (fun p => includes p lower) patterns)
  | _ => None
  end.

Definition isClaude46Model : value -> option bool :=
  matches_patterns CLAUDE_46_PATTERNS.

Definition isClaudeThinkingModel : value -> option bool :=
  matches_patterns CLAUDE_THINKING_PATTERNS.

(** [v < n]. *)
Definition js_lt `{Platform} (v : value) (n : Z) : option bool :=
  match v with
  | VNum m => Some (m <? n)%Z
  | _ => lt_coerced v n
  end.

Definition is_undefined (v : value) : bool :=
  match v with
  | VUndefined => true
  | _ => false
  end.

Definition THINKING_ADAPTIVE : value := VObj [("type", VStr "adaptive")].

Definition THINKING_ENABLED : value :=
  VObj [("type", VStr "enabled"); ("budget_tokens", VNum DEFAULT_THINKING_BUDGET)].

Definition injectThinking `{Platform} (body : obj) : option obj :=
  if negb (is_undefined (obj_get body "thinking")) then Some body
  else
    let model := obj_get body "model" in
    if negb (truthy model) then Some body
    else
      is46 <- isClaude46Model model ;;
      if is46 then Some (obj_set body "thinking" THINKING_ADAPTIVE)
      else
        isThinking <- isClaudeThinkingModel model ;;
        if isThinking then
          let body1 := obj_set body "thinking" THINKING_ENABLED in
          let max_tokens := obj_get body1 "max_tokens" in
          low <- (if negb (truthy max_tokens) then Some true
                  else js_lt max_tokens (DEFAULT_THINKING_BUDGET + 4096)) ;;
          Some (if low
                then obj_set body1 "max_tokens"
                       (VNum (DEFAULT_THINKING_BUDGET + 4096))
                else body1)
        else Some body.

(** *** System prompt *)

(** The callback of [body.system.filter]: [s.type === "text" && s.text]. *)
Definition is_text_segment (s : value) : option bool :=
  ty <- get_prop s "type" ;;
  Some (is_str ty "text" && truthy (get_opt s "text")).

(** [l.filter(p)] with a [p] that may raise. *)
Fixpoint filterM {A : Type} (p : A -> option bool) (l : list A)
  : option (list A) :=
  match l with
  | [] => Some []
  | x :: l' =>
      keep <- p x ;;
      rest <- filterM p l' ;;
      Some (if keep then x :: rest else rest)
  end.

(** Coercion of one element by [join]. *)
Definition join_item `{Platform} (v : value) : option string :=
  match v with
  | VStr s => Some s
  | VUndefined | VNull => Some ""
  | _ => ToString v
  end.

Fixpoint join_strings (sep : string) (l : list string) : string :=
  match l with
  | [] => ""
  | [s] => s
  | s :: l' => s ++ sep ++ join_strings sep l'
  end.

(** [texts.join(sep)]. *)
Definition join `{Platform} (sep : string) (texts : list value) : option string :=
  strs <- mapM join_item texts ;;
  Some (join_strings sep strs).

(** The first part of [injectSystemPrompt]: the value of [clientSystem]
    ([VNull] or a string) when [body.system] is overwritten. *)
Definition clientSystem_of `{Platform} (body : obj) : option value :=
  let system := obj_get body "system" in
  if truthy system then
    match system with
    | VStr s => Some (VStr s)
    | VArr segments =>
        kept <- filterM is_text_segment segments ;;
        let texts := map (fun s => get_opt s "text") kept in
        match texts with
        | [] => Some VNull
        | _ => joined <- join (LF ++ LF) texts ;; Some (VStr joined)
        end
    | _ => Some VNull
    end
  else Some VNull.

(** [messages.findIndex((m) => m.role === "user")]; [Some None] is [-1]. *)
Fixpoint findIndex_user (messages : list value) : option (option nat) :=
  match messages with
  | [] => Some None
  | m :: rest =>
      role <- get_prop m "role" ;;
      if is_str role "user" then Some (Some O)
      else
        found <- findIndex_user rest ;;
        Some (option_map S found)
  end.

Definition system_prefix (clientSystem : string) : string :=
  "[System Instructions]" ++ LF ++ clientSystem ++ LF
  ++ "[End System Instructions]" ++ LF ++ LF.

(** The effect on [msg] of the last [if]/[else if] of
    [injectSystemPrompt]. *)
Definition prepend_system (clientSystem : string) (msg : value) : value :=
  match msg with
  | VObj m =>
      match obj_get m "content" with
      | VStr content =>
          VObj (obj_set m "content" (VStr (system_prefix clientSystem ++ content)))
      | VArr blocks =>
          VObj (obj_set m "content"
                  (VArr (VObj [("type", VStr "text");
                               ("text", VStr (system_prefix clientSystem))]
                         :: blocks)))
      | _ => msg
      end
  | _ => msg
  end.

(** [l[i] = f(l[i])]. *)
Fixpoint update_nth {A : Type} (i : nat) (f : A -> A) (l : list A) : list A :=
  match l, i with
  | [], _ => []
  | x :: l', O => f x :: l'
  | x :: l', S i' => x :: update_nth i' f l'
  end.

Definition injectSystemPrompt `{Platform} (body : obj) : option obj :=
  clientSystem <- clientSystem_of body ;;
  let body1 := obj_set body "system" CLAUDE_CODE_SYSTEM in
  match clientSystem, obj_get body1 "messages" with
  | VStr cs, VArr messages =>
      if truthy clientSystem then
        firstUserIdx <- findIndex_user messages ;;
        match firstUserIdx with
        | Some i =>
            Some (obj_set body1 "messages"
                    (VArr (update_nth i (prepend_system cs) messages)))
        | None => Some body1
        end
      else Some body1
  | _, _ => Some body1
  end.

(** *** The request pipeline of [handleRequest] *)

(** [injectThinking(injectSystemPrompt(transformRequestBody(
    cleanUndefined(parsed))))].  The cast of the parsed body to
    [RequestBody] is unchecked; a body that is not a JSON object is outside
    that type and gets no result here. *)
Definition transformRequest `{Platform} (parsed : value) : option value :=
  transformed <- transformRequestBody (cleanUndefined parsed) ;;
  match transformed with
  | VObj body =>
      injected <- injectSystemPrompt body ;;
      withThinking <- injectThinking injected ;;
      Some (VObj withThinking)
  | _ => None
  end.

(** *** The streaming relay of [forwardRequest] *)

(** First occurrence of [sep] in [s]: the text before it and the text after
    it. *)
Fixpoint find_sep (sep s : string) : option (string * string) :=
  if prefix sep s then Some ("", slice (length sep) s)
  else
    match s with
    | "" => None
    | String c s' =>
        match find_sep sep s' with
        | Some (before, after) => Some (String c before, after)
        | None => None
        end
    end.

Fixpoint split_fuel (fuel : nat) (sep s : string) : list string :=
  match fuel with
  | O => [s]
  | S fuel' =>
      match find_sep sep s with
      | None => [s]
      | Some (before, after) => before :: split_fuel fuel' sep after
      end
  end.

(** [s.split(sep)] for a non-empty [sep]: every separator found removes at
    least one character, so [length s] rounds are enough. *)
Definition split (sep s : string) : list string :=
  split_fuel (length s) sep s.

(** [part.split("\n").map(transformSSELine).join("\n") + "\n\n"], the
    argument of [clientRes.write]. *)
Definition transformEvent `{Platform} (part : string) : string :=
  join_strings LF (map transformSSELine (split LF part)) ++ LF ++ LF.

Record relay_state : Type := {
  buffer : string;
  written : list string
}.

Definition relay_start : relay_state := {| buffer := ""; written := [] |}.

(** The ["data"] handler, after [chunk.toString("utf-8")]. *)
Definition feed `{Platform} (st : relay_state) (text : string) : relay_state :=
  let buf := buffer st ++ text in
  let parts := split (LF ++ LF) buf in
  {| buffer := last parts "";
     written := (written st ++ map transformEvent (removelast parts))%list |}.

(** The ["end"] handler. *)
Definition finish `{Platform} (st : relay_state) : list string :=
  if negb (trim (buffer st) =? "")
  then (written st ++ [transformEvent (buffer st)])%list
  else written st.

(** The writes to the client for a stream delivered as [texts]. *)
Definition relay_text `{Platform} (texts : list string) : list string :=
  finish (fold_left feed texts relay_start).

(** **** [Buffer.prototype.toString("utf-8")] *)

Definition REPLACEMENT : string :=
  String "239" (String "191" (String "189" "")).

Inductive lead_kind : Type :=
| Single
| Lead (needed : nat) (lo hi : N)
| Invalid.

Definition classify (n : N) : lead_kind :=
  (if n <=? 0x7F then Single
   else if (0xC2 <=? n) && (n <=? 0xDF) then Lead 1 0x80 0xBF
   else if (0xE0 <=? n) && (n <=? 0xEF)
        then Lead 2 (if n =? 0xE0 then 0xA0 else 0x80)
                    (if n =? 0xED then 0x9F else 0xBF)
   else if (0xF0 <=? n) && (n <=? 0xF4)
        then Lead 3 (if n =? 0xF0 then 0x90 else 0x80)
                    (if n =? 0xF4 then 0x8F else 0xBF)
   else Invalid)%N.

(** The UTF-8 decoder of the Encoding Standard.  The decoded text is kept
    in UTF-8, so a well-formed sequence is copied and every error yields
    U+FFFD; a byte that cannot continue the pending sequence is looked at
    again as the start of a new one. *)
Fixpoint utf8_decode (pending : string) (needed : nat) (lo hi : N)
  (bytes : list Byte.byte) : string :=
  match bytes with
  | [] =>
      match needed with
      | O => ""
      | S _ => REPLACEMENT
      end
  | b :: rest =>
      let n := Byte.to_N b in
      let c := ascii_of_byte b in
      let start :=
        match classify n with
        | Single => String c (utf8_decode "" 0 0x80 0xBF rest)
        | Lead k l h => utf8_decode (String c "") k l h rest
        | Invalid => REPLACEMENT ++ utf8_decode "" 0 0x80 0xBF rest
        end in
      match needed with
      | O => start
      | S k =>
          if ((lo <=? n) && (n <=? hi))%N then
            match k with
            | O => pending ++ String c (utf8_decode "" 0 0x80 0xBF rest)
            | S _ => utf8_decode (pending ++ String c "") k 0x80 0xBF rest
            end
          else REPLACEMENT ++ start
      end
  end.

Definition toString_utf8 (chunk : list Byte.byte) : string :=
  utf8_decode "" 0 0x80 0xBF chunk.

(** The writes to the client for an upstream response delivered as
    [chunks]. *)
Definition relay `{Platform} (chunks : list (list Byte.byte)) : list string :=
  relay_text (map toString_utf8 chunks).

(** ** A platform to run examples on

    A JSON reader and writer for integers, strings with the simple escapes,
    arrays and objects.  The properties are proved for every [Platform];
    this one evaluates them on concrete requests and events. *)

Module Sample.

Definition DQUOTE : ascii := "034"%char.
Definition BACKSLASH : ascii := "092"%char.

Definition is_json_space (c : ascii) : bool :=
  let n := nat_of_ascii c in
  ((n =? 32) || (n =? 9) || (n =? 10) || (n =? 13))%nat.

Fixpoint skip_ws (s : string) : string :=
  match s with
  | "" => ""
  | String c s' => if is_json_space c then skip_ws s' else s
  end.

Definition is_digit (c : ascii) : bool :=
  ((48 <=? nat_of_ascii c) && (nat_of_ascii c <=? 57))%nat.

Fixpoint read_digits (acc : Z) (s : string) : Z * string :=
  match s with
  | "" => (acc, "")
  | String c s' =>
      if is_digit c
      then read_digits (10 * acc + Z.of_nat (nat_of_ascii c - 48)) s'
      else (acc, s)
  end.

Definition unescape (c : ascii) : option ascii :=
  if (c =? DQUOTE)%char then Some DQUOTE
  else if (c =? BACKSLASH)%char then Some BACKSLASH
  else if (c =? "/")%char then Some "/"%char
  else if (c =? "n")%char then Some "010"%char
  else if (c =? "t")%char then Some "009"%char
  else if (c =? "r")%char then Some "013"%char
  else if (c =? "b")%char then Some "008"%char
  else if (c =? "f")%char then Some "012"%char
  else None.

(** The characters of a string literal after its opening quote, and what
    follows the closing quote. *)
Fixpoint read_string (s : string) : option (string * string) :=
  match s with
  | "" => None
  | String c s' =>
      if (c =? DQUOTE)%char then Some ("", s')
      else if (c =? BACKSLASH)%char then
        match s' with
        | String e s'' =>
            match unescape e, read_string s'' with
            | Some d, Some (body, rest) => Some (String d body, rest)
            | _, _ => None
            end
        | "" => None
        end
      else
        match read_string s' with
        | Some (body, rest) => Some (String c body, rest)
        | None => None
        end
  end.

Fixpoint read_value (fuel : nat) (s : string) : option (value * string) :=
  match fuel with
  | O => None
  | S fuel' =>
      let s := skip_ws s in
      if prefix "null" s then Some (VNull, slice 4 s)
      else if prefix "true" s then Some (VBool true, slice 4 s)
      else if prefix "false" s then Some (VBool false, slice 5 s)
      else
        match s with
        | "" => None
        | String c s' =>
            if (c =? DQUOTE)%char then
              match read_string s' with
              | Some (body, rest) => Some (VStr body, rest)
              | None => None
              end
            else if (c =? "[")%char then
              if prefix "]" (skip_ws s') then Some (VArr [], slice 1 (skip_ws s'))
              else
                match read_elements fuel' s' with
                | Some (items, rest) => Some (VArr items, rest)
                | None => None
                end
            else if (c =? "{")%char then
              if prefix "}" (skip_ws s') then Some (VObj [], slice 1 (skip_ws s'))
              else
                match read_members fuel' s' with
                | Some (members, rest) =>
                    Some (VObj (fold_left (fun o kv => obj_set o (fst kv) (snd kv))
                                          members []), rest)
                | None => None
                end
            else if (c =? "-")%char then
              match s' with
              | String d _ =>
                  if is_digit d
                  then let (n, rest) := read_digits 0 s' in Some (VNum (- n), rest)
                  else None
              | "" => None
              end
            else if is_digit c then
              let (n, rest) := read_digits 0 s in Some (VNum n, rest)
            else None
        end
  end
with read_elements (fuel : nat) (s : string) : option (list value * string) :=
  match fuel with
  | O => None
  | S fuel' =>
      match read_value fuel' s with
      | Some (item, rest) =>
          match skip_ws rest with
          | String c rest' =>
              if (c =? ",")%char then
                match read_elements fuel' rest' with
                | Some (items, rest'') => Some (item :: items, rest'')
                | None => None
                end
              else if (c =? "]")%char then Some ([item], rest')
              else None
          | "" => None
          end
      | None => None
      end
  end
with read_members (fuel : nat) (s : string) : option (list (string * value) * string) :=
  match fuel with
  | O => None
  | S fuel' =>
      match skip_ws s with
      | String q s1 =>
          if (q =? DQUOTE)%char then
            match read_string s1 with
            | Some (key, s2) =>
                match skip_ws s2 with
                | String colon s3 =>
                    if (colon =? ":")%char then
                      match read_value fuel' s3 with
                      | Some (v, rest) =>
                          match skip_ws rest with
                          | String c rest' =>
                              if (c =? ",")%char then
                                match read_members fuel' rest' with
                                | Some (members, rest'') =>
                                    Some ((key, v) :: members, rest'')
                                | None => None
                                end
                              else if (c =? "}")%char then Some ([(key, v)], rest')
                              else None
                          | "" => None
                          end
                      | None => None
                      end
                    else None
                | "" => None
                end
            | None => None
            end
          else None
      | "" => None
      end
  end.

Definition parse (s : string) : option value :=
  match read_value (2 * length s + 2) s with
  | Some (v, rest) => if skip_ws rest =? "" then Some v else None
  | None => None
  end.

Definition decimal (n : Z) : string :=
  DecimalString.NilZero.string_of_int (Z.to_int n).

Fixpoint quote_body (s : string) : string :=
  match s with
  | "" => ""
  | String c s' =>
      if (c =? DQUOTE)%char || (c =? BACKSLASH)%char
      then String BACKSLASH (String c (quote_body s'))
      else if (c =? "010")%char then String BACKSLASH (String "n" (quote_body s'))
      else String c (quote_body s')
  end.

Definition quote (s : string) : string :=
  String DQUOTE (quote_body s ++ String DQUOTE "").

Definition omitted (v : value) : bool :=
  match v with
  | VUndefined | VNative _ => true
  | _ => false
  end.

Fixpoint stringify (v : value) : string :=
  match v with
  | VUndefined | VNull | VNative _ => "null"
  | VBool true => "true"
  | VBool false => "false"
  | VNum n => decimal n
  | VStr s => quote s
  | VArr items =>
      "[" ++ join_strings "," (map stringify items) ++ "]"
  | VObj props =>
      "{" ++ join_strings ","
               ((fix members (l : obj) : list string :=
                   match l with
                   | [] => []
                   | (k, x) :: l' =>
                       if omitted x then members l'
                       else (quote k ++ ":" ++ stringify x) :: members l'
                   end) props)
          ++ "}"
  end.

Definition to_string (v : value) : option string :=
  match v with
  | VStr s => Some s
  | VNum n => Some (decimal n)
  | VBool true => Some "true"
  | VBool false => Some "false"
  | VNull => Some "null"
  | VUndefined => Some "undefined"
  | VObj _ => Some "[object Object]"
  | VArr [] => Some ""
  | VArr _ | VNative _ => None
  end.

Definition less_than (v : value) (n : Z) : option bool :=
  match v with
  | VNum m => Some (m <? n)%Z
  | VBool true => Some (1 <? n)%Z
  | VBool false | VNull => Some (0 <? n)%Z
  | _ => Some false
  end.

Definition platform : Platform :=
  {| JSON_parse := parse;
     JSON_stringify := stringify;
     ToString := to_string;
     lt_coerced := less_than;
     capitalize_nonascii := fun s => s |}.

End Sample.

(** * Vocabulary of the properties *)

(** What [JSON.parse] returns, on texts that name no [__proto__] key:
    neither undefined nor a native member, and the keys of an object are
    distinct. *)
#[warnings="-register-all"]
Inductive plain_json : value -> Prop :=
| plain_null : plain_json VNull
| plain_bool (b : bool) : plain_json (VBool b)
| plain_num (n : Z) : plain_json (VNum n)
| plain_str (s : string) : plain_json (VStr s)
| plain_arr (items : list value) :
    Forall plain_json items -> plain_json (VArr items)
| plain_obj (props : obj) :
    NoDup (map fst props) ->
    ~ In "__proto__" (map fst props) ->
    Forall (fun kv => plain_json (snd kv)) props ->
    plain_json (VObj props).

(** The marker occurs in [v]: as [v] itself, as an array element or as the
    value of a property, at any depth. *)
Fixpoint contains_mark (v : value) : bool :=
  match v with
  | VStr s => s =? UNDEFINED_MARK
  | VArr items => existsb contains_mark items
  | VObj props => existsb (fun kv => contains_mark (snd kv)) props
  | _ => false
  end.

Definition is_container (v : value) : bool :=
  match v with
  | VArr _ | VObj _ => true
  | _ => false
  end.

(** [Pruned v v']: [v'] is [v] with the array elements equal to the marker
    and the properties whose value is the marker taken out, at every depth,
    and everything else in place and in order. *)
Inductive Pruned : value -> value -> Prop :=
| Pruned_leaf (v : value) : is_container v = false -> Pruned v v
| Pruned_array (items items' : list value) :
    PrunedItems items items' -> Pruned (VArr items) (VArr items')
| Pruned_object (props props' : obj) :
    PrunedProps props props' -> Pruned (VObj props) (VObj props')
with PrunedItems : list value -> list value -> Prop :=
| PrunedItems_nil : PrunedItems [] []
| PrunedItems_drop (items items' : list value) :
    PrunedItems items items' ->
    PrunedItems (VStr UNDEFINED_MARK :: items) items'
| PrunedItems_keep (x x' : value) (items items' : list value) :
    x <> VStr UNDEFINED_MARK -> Pruned x x' -> PrunedItems items items' ->
    PrunedItems (x :: items) (x' :: items')
with PrunedProps : obj -> obj -> Prop :=
| PrunedProps_nil : PrunedProps [] []
| PrunedProps_drop (k : string) (props props' : obj) :
    PrunedProps props props' ->
    PrunedProps ((k, VStr UNDEFINED_MARK) :: props) props'
| PrunedProps_keep (k : string) (x x' : value) (props props' : obj) :
    x <> VStr UNDEFINED_MARK -> Pruned x x' -> PrunedProps props props' ->
    PrunedProps ((k, x) :: props) ((k, x') :: props').

(** The body of the loop of [cleanUndefined] over the entries of an
    object. *)
Definition clean_step (cleaned : obj) (kv : string * value) : obj :=
  if is_str (snd kv) UNDEFINED_MARK then cleaned
  else obj_set cleaned (fst kv) (cleanUndefined (snd kv)).

(** The entries that loop keeps, each with its value sanitised. *)
Definition clean_props (props : obj) : obj :=
  map (fun kv => (fst kv, cleanUndefined (snd kv)))
      (filter (fun kv => keep_item (snd kv)) props).

(** What the Unicode case mapping must satisfy for the results that mention
    it: a capitalised name starts with an ASCII capital, or with a character
    that capitalising leaves alone. *)
Definition settled `{Platform} (s : string) : Prop :=
  match s with
  | "" => True
  | String c _ =>
      if is_ascii c then is_ascii_upper c = true
      else capitalize_nonascii s = s
  end.

Definition case_mapping_settles `{Platform} : Prop :=
  forall c rest, is_ascii c = false ->
                 settled (capitalize_nonascii (String c rest)).

(** What the repair of one input value may do: replace a string that
    starts with a bracket or a brace by its parse, keep it when it does not
    parse, and leave everything else alone. *)
Inductive RepairedValue `{Platform} : value -> value -> Prop :=
| Repaired_parsed (s : string) (parsed : value) :
    looks_structured s = true -> JSON_parse s = Some parsed ->
    RepairedValue (VStr s) parsed
| Repaired_unparsable (s : string) :
    looks_structured s = true -> JSON_parse s = None ->
    RepairedValue (VStr s) (VStr s)
| Repaired_untouched (v : value) :
    (forall s, v = VStr s -> looks_structured s = false) ->
    RepairedValue v v.

(** Same keys in the same order, each value repaired. *)
Definition RepairedInput `{Platform} (input input' : obj) : Prop :=
  Forall2 (fun kv kv' => fst kv' = fst kv /\ RepairedValue (snd kv) (snd kv'))
          input input'.

(** A block is repaired through its [input] when it is a [tool_use] block
    whose [input] is an object (or an array); any other block is kept. *)
Inductive RepairedBlock `{Platform} : value -> value -> Prop :=
| Repaired_object_input (b input input' : obj) :
    obj_get b "type" = VStr "tool_use" ->
    obj_get b "input" = VObj input ->
    RepairedInput input input' ->
    RepairedBlock (VObj b) (VObj (obj_set b "input" (VObj input')))
| Repaired_array_input (b : obj) (items items' : list value) :
    obj_get b "type" = VStr "tool_use" ->
    obj_get b "input" = VArr items ->
    Forall2 RepairedValue items items' ->
    RepairedBlock (VObj b) (VObj (obj_set b "input" (VArr items')))
| Repaired_other (block : value) :
    get_opt block "type" <> VStr "tool_use"
    \/ is_container (get_opt block "input") = false ->
    RepairedBlock block block.

(** The keys of every [input] object are distinct, as in any object. *)
Definition distinct_input_keys (blocks : list value) : Prop :=
  forall block input,
    In block blocks -> get_opt block "input" = VObj input ->
    NoDup (map fst input).

(** A response with one [tool_use] block whose input has the one property
    [args]. *)
Definition tool_use_response (args : value) : value :=
  VObj [("content",
         VArr [VObj [("type", VStr "tool_use"); ("name", VStr "Grep");
                     ("input", VObj [("args", args)])]])].

(** The trimmed text after [data:]. *)
Definition payload (line : string) : string := trim (slice 5 line).

(** The event starts a content block that is a [tool_use] block with a
    name (a name is present when it is truthy, as the code tests it). *)
Definition ToolUseStart (data : value) : Prop :=
  get_opt data "type" = VStr "content_block_start"
  /\ get_opt (get_opt data "content_block") "type" = VStr "tool_use"
  /\ truthy (get_opt (get_opt data "content_block") "name") = true.

Definition is_object (v : value) : Prop := exists o, v = VObj o.

(** A typed segment of a [system] array: an object whose [text], when it
    has one, is a string. *)
Definition typed_segment (segment : value) : Prop :=
  exists o, segment = VObj o
            /\ (obj_get o "text" = VUndefined \/ exists t, obj_get o "text" = VStr t).

(** The shapes of [system]: absent, a string, or a sequence of typed
    segments. *)
Definition system_shape (system : value) : Prop :=
  system = VUndefined
  \/ (exists s, system = VStr s)
  \/ (exists segments, system = VArr segments /\ Forall typed_segment segments).

(** When [messages] is an array, its elements are objects. *)
Definition message_list (messages : value) : Prop :=
  forall ms, messages = VArr ms -> Forall is_object ms.

(** A message that [findIndex] passes over: its [role] can be read and is
    not ["user"]. *)
Definition not_user (m : value) : Prop :=
  exists role, get_prop m "role" = Some role /\ is_str role "user" = false.

Definition text_block (text : string) : value :=
  VObj [("type", VStr "text"); ("text", VStr text)].

(** The whole text of a stream delivered in pieces. *)
Definition whole (texts : list string) : string :=
  fold_right append "" texts.

(** The relay's state once the text [s] has arrived, however it was cut. *)
Definition relay_after `{Platform} (s : string) : relay_state :=
  let parts := split (LF ++ LF) s in
  {| buffer := last parts "";
     written := map transformEvent (removelast parts) |}.

Definition is_ascii_byte (b : Byte.byte) : bool := (Byte.to_N b <? 128)%N.

(** A descriptor whose [type] is a string starting with one of the builtin
    prefixes. *)
Definition builtin_descriptor (tool : value) : Prop :=
  exists ty, get_opt tool "type" = VStr ty
             /\ existsb (fun p => prefix p ty) BUILTIN_TOOL_TYPES = true.

(** * Concrete requests, responses and streams *)

Module Data.

(** A tree with the marker as a property value, as an array element and
    one level further down. *)
Definition marked_tree : value :=
  VObj [ ("a", VStr "[undefined]");
         ("b", VArr [ VStr "[undefined]"; VNum 1;
                      VObj [("c", VStr "[undefined]"); ("d", VStr "x")] ]) ].

Definition user_hello : obj :=
  [("role", VStr "user"); ("content", VStr "hello")].

Definition assistant_hi : value :=
  VObj [("role", VStr "assistant"); ("content", VStr "hi")].

(** The request of the specification's example. *)
Definition be_terse : obj :=
  [ ("model", VStr "claude-3-7-sonnet-20250219");
    ("system", VStr "Be terse");
    ("messages", VArr [VObj user_hello]) ].

Definition be_terse_later : obj :=
  [ ("system", VStr "Be terse");
    ("messages", VArr [assistant_hi; VObj user_hello]) ].

(** A model identifier that matches ["claude-3-7-sonnet"] and an adaptive
    pattern. *)
Definition two_families : obj :=
  [ ("model", VStr "claude-opus-4-or-claude-3-7-sonnet");
    ("max_tokens", VNum 1024) ].

Definition sonnet_small : obj :=
  [ ("model", VStr "Claude-3-7-Sonnet-20250219");
    ("max_tokens", VNum 1024) ].

Definition web_search : value :=
  VObj [("type", VStr "web_search_20250305"); ("name", VStr "web_search")].

Definition todowrite : value :=
  VObj [("name", VStr "todowrite"); ("description", VStr "[undefined]")].

Definition tools_request : obj :=
  [ ("model", VStr "gpt-4o");
    ("tools", VArr [web_search; VStr "[undefined]"; todowrite]) ].

Definition tools_result : value :=
  VObj
    [ ("model", VStr "gpt-4o");
      ("tools", VArr [web_search; VObj [("name", VStr "TodoWrite")]]);
      ("system", CLAUDE_CODE_SYSTEM) ].

(** A builtin descriptor whose name is the marker. *)
Definition bash_marked : value :=
  VObj [("type", VStr "bash_20250124"); ("name", VStr "[undefined]")].

Definition bash_request : obj :=
  [("model", VStr "gpt-4o"); ("tools", VArr [bash_marked])].

Definition tool_start (name : string) : value :=
  VObj [ ("type", VStr "content_block_start"); ("index", VNum 1);
         ("content_block",
          VObj [ ("type", VStr "tool_use"); ("id", VStr "toolu_01");
                 ("name", VStr name); ("input", VObj []) ]) ].

Definition tool_start_line (name : string) : string :=
  "data: " ++ Sample.stringify (tool_start name).

(** [é] in UTF-8. *)
Definition E_ACUTE : string := String "195" (String "169" "").

Definition text_delta : value :=
  VObj [ ("type", VStr "content_block_delta"); ("index", VNum 0);
         ("delta", VObj [("type", VStr "text_delta"); ("text", VStr E_ACUTE)]) ].

(** One event of a stream, and the same bytes cut between the two bytes of
    [é]. *)
Definition delta_event : string :=
  "data: " ++ Sample.stringify text_delta ++ LF ++ LF.

Definition cut_at : nat := 84.

Definition delta_bytes : list Byte.byte := list_byte_of_string delta_event.

Definition delta_head : list Byte.byte := firstn cut_at delta_bytes.

Definition delta_tail : list Byte.byte := skipn cut_at delta_bytes.

Definition garbled_event : string :=
  "data: "
  ++ Sample.stringify
       (VObj [ ("type", VStr "content_block_delta"); ("index", VNum 0);
               ("delta", VObj [("type", VStr "text_delta");
                               ("text", VStr (REPLACEMENT ++ REPLACEMENT))]) ])
  ++ LF ++ LF.

(** A request of an agent: a builtin tool and a tool of its own, and an
    earlier call of that tool among the messages. *)
Definition call_tool (name : string) : value :=
  VObj [ ("type", VStr "tool_use"); ("id", VStr "toolu_01");
         ("name", VStr name); ("input", VObj []) ].

Definition agent_turns (name : string) : list value :=
  [ VObj user_hello;
    VObj [ ("role", VStr "assistant");
           ("content", VArr [text_block "ok"; call_tool name]) ] ].

Definition agent_tools (name : string) : list value :=
  [ web_search; VObj [("name", VStr name); ("input_schema", VObj [])] ].

Definition agent_request (name : string) : obj :=
  [ ("model", VStr "claude-sonnet-4-5"); ("stream", VBool true);
    ("tools", VArr (agent_tools name));
    ("messages", VArr (agent_turns name)) ].

(** A response that is text only. *)
Definition text_response : value :=
  VObj [ ("id", VStr "msg_01"); ("role", VStr "assistant");
         ("content", VArr [text_block "hi"]) ].

(** A [system] given as segments: two texts, an empty text and a segment
    of another type. *)
Definition segmented : obj :=
  [ ("system",
     VArr [ text_block "Be terse"; text_block "";
            VObj [("type", VStr "cache"); ("text", VStr "skipped")];
            text_block "Use tools" ]);
    ("messages", VArr [VObj user_hello]) ].

(** A stream of two events, delivered in two pieces that cut the first
    event. *)
Definition ping_stream : list string :=
  [ "event: ping" ++ LF ++ "data: {";
    "}" ++ LF ++ LF ++ "data: [DONE]" ++ LF ++ LF ].

(** The bytes of a tool event, cut after the thirtieth. *)
Definition tool_start_chunks : list (list Byte.byte) :=
  let bytes :=
    list_byte_of_string (tool_start_line "todowrite" ++ LF ++ LF) in
  [firstn 30 bytes; skipn 30 bytes].

End Data.

(** ** Vocabulary of the further properties *)

Definition is_nullish (v : value) : Prop := v = VNull \/ v = VUndefined.

(** The first character of [s], when there is one, is ASCII. *)
Definition ascii_first (s : string) : bool :=
  match s with
  | "" => true
  | String c _ => is_ascii c
  end.

(** [v'] is [v], or [v] with the value under its existing property [key]
    replaced: no property is added, removed or moved. *)
Definition same_but (key : string) (v v' : value) : Prop :=
  v' = v
  \/ exists o x, v = VObj o /\ In key (map fst o)
                 /\ v' = VObj (obj_set o key x).

(** How the tool loop relates a tool to what it leaves in its place. *)
Definition tool_renamed `{Platform} (tool tool' : value) : Prop :=
  same_but "name" tool tool'
  /\ (isBuiltinTool tool = Some true -> tool' = tool)
  /\ (isBuiltinTool tool = Some false ->
      get_opt tool' "name" = mapName (get_opt tool "name")).

(** How the block loop relates a content block to what it leaves in its
    place. *)
Definition block_renamed `{Platform} (block block' : value) : Prop :=
  same_but "name" block block'
  /\ (get_opt block "type" <> VStr "tool_use" -> block' = block)
  /\ (get_opt block "type" = VStr "tool_use" ->
      get_opt block' "name" = mapName (get_opt block "name")).

Definition message_renamed `{Platform} (message message' : value) : Prop :=
  same_but "content" message message'
  /\ ((forall blocks, get_opt message "content" <> VArr blocks) ->
      message' = message)
  /\ (forall blocks,
         get_opt message "content" = VArr blocks ->
         exists blocks',
           get_opt message' "content" = VArr blocks'
           /\ Forall2 block_renamed blocks blocks').

(** [model] contains [pattern], letter case apart. *)
Definition mentions (pattern model : string) : bool :=
  includes pattern (toLowerCase model).

(** The texts that the capture takes from a [system] array: of every
    segment of type ["text"], its text when it is a non-empty string. *)
Definition segment_texts (segments : list value) : list string :=
  flat_map
    (fun segment =>
       if is_str (get_opt segment "type") "text" then
         match get_opt segment "text" with
         | VStr "" => []
         | VStr text => [text]
         | _ => []
         end
       else [])
    segments.

(** A request of the shape the transforms are written for: a JSON object
    whose [tools] hold no null, whose [system] is absent, a string or a
    sequence of typed segments, whose [messages] are objects, whose [model]
    is absent or a string and whose [max_tokens] is absent or a number. *)
Definition typed_request (body : obj) : Prop :=
  plain_json (VObj body)
  /\ (forall tools, obj_get body "tools" = VArr tools ->
                    Forall (fun tool => tool <> VNull) tools)
  /\ system_shape (obj_get body "system")
  /\ message_list (obj_get body "messages")
  /\ (obj_get body "model" = VUndefined
      \/ exists model, obj_get body "model" = VStr model)
  /\ (obj_get body "max_tokens" = VUndefined
      \/ exists n, obj_get body "max_tokens" = VNum n).

(** The value the sanitiser leaves under the key [k] of an object. *)
Definition cleaned_field (body : obj) (k : string) : value :=
  if is_str (obj_get body k) UNDEFINED_MARK then VUndefined
  else cleanUndefined (obj_get body k).

(** A sequence of property writes, first to last. *)
Definition apply_writes (o : obj) (writes : list (string * value)) : obj :=
  fold_left (fun o' kv => obj_set o' (fst kv) (snd kv)) writes o.

(** * Properties *)

(** ** Own properties *)

Lemma obj_get_set_same (o : obj) (k : string) (v : value) :
  obj_get (obj_set o k v) k = v.
Proof.
  induction o as [|[k' v'] o IH]; simpl.
  - now rewrite String.eqb_refl.
  - destruct (String.eqb_spec k' k) as [->|Hne]; simpl.
    + now rewrite String.eqb_refl.
    + destruct (String.eqb_spec k' k); [contradiction | exact IH].
Qed.

Lemma obj_get_set_other (o : obj) (k k' : string) (v : value) :
  k <> k' -> obj_get (obj_set o k v) k' = obj_get o k'.
Proof.
  intros Hne. induction o as [|[k0 v0] o IH]; simpl.
  - destruct (String.eqb_spec k k'); [contradiction | reflexivity].
  - destruct (String.eqb_spec k0 k) as [->|Hk]; simpl.
    + destruct (String.eqb_spec k k'); [contradiction | reflexivity].
    + destruct (String.eqb_spec k0 k'); [reflexivity | exact IH].
Qed.

Lemma obj_set_fresh (o : obj) (k : string) (v : value) :
  ~ In k (map fst o) -> obj_set o k v = (o ++ [(k, v)])%list.
Proof.
  induction o as [|[k' v'] o IH]; simpl; intros Hnot; [reflexivity|].
  destruct (String.eqb_spec k' k) as [->|Hne].
  - exfalso. apply Hnot. now left.
  - f_equal. apply IH. intros Hin. apply Hnot. now right.
Qed.

Lemma obj_get_absent (o : obj) (k : string) :
  ~ In k (map fst o) -> obj_get o k = VUndefined.
Proof.
  induction o as [|[k' v'] o IH]; simpl; intros Hnot; [reflexivity|].
  destruct (String.eqb_spec k' k) as [->|Hne].
  - exfalso. apply Hnot. now left.
  - apply IH. intros Hin. apply Hnot. now right.
Qed.

Lemma obj_set_keys_present (o : obj) (k : string) (v : value) :
  In k (map fst o) -> map fst (obj_set o k v) = map fst o.
Proof.
  induction o as [|[k' v'] o IH]; simpl; intros Hin; [contradiction|].
  destruct (String.eqb_spec k' k) as [->|Hne]; simpl; [reflexivity|].
  f_equal. apply IH. destruct Hin as [Heq|Hin]; [contradiction | exact Hin].
Qed.

Section Properties.

Context {P : Platform}.

(** ** The name map *)

Lemma mapName_not_string (x : value) :
  (forall s, x <> VStr s) -> mapName x = x.
Proof. destruct x; intros H; try reflexivity. now destruct (H s). Qed.

Lemma mapName_empty : mapName (VStr "") = VStr "".
Proof. reflexivity. Qed.

(** What [NAME_MAP[name]] can be: nothing, a canonical form, or an
    inherited member. *)
Lemma NAME_MAP_lookup (s : string) :
  (obj_lookup NAME_MAP s = VUndefined /\ has_own NAME_MAP s = false
   /\ mem_string s OBJECT_PROTOTYPE = false)
  \/ (has_own NAME_MAP s = true /\
      (s = "todowrite" /\ obj_lookup NAME_MAP s = VStr "TodoWrite"
       \/ s = "webfetch" /\ obj_lookup NAME_MAP s = VStr "WebFetch"
       \/ s = "google_search" /\ obj_lookup NAME_MAP s = VStr "Google_Search"))
  \/ (has_own NAME_MAP s = false /\ mem_string s OBJECT_PROTOTYPE = true
      /\ obj_lookup NAME_MAP s = VNative s).
Proof.
  unfold obj_lookup.
  destruct (has_own NAME_MAP s) eqn:Hown.
  - right; left. split; [reflexivity|].
    unfold NAME_MAP in *. cbn -[String.eqb] in *.
    destruct (String.eqb_spec "todowrite" s) as [Heq|_];
      [subst s; now left|].
    destruct (String.eqb_spec "webfetch" s) as [Heq|_];
      [subst s; now right; left|].
    destruct (String.eqb_spec "google_search" s) as [Heq|_];
      [subst s; now right; right|].
    discriminate.
  - destruct (mem_string s OBJECT_PROTOTYPE) eqn:Hm.
    + right; right. now repeat split.
    + left. now repeat split.
Qed.

Lemma mapName_unlisted (s : string) :
  s <> "" -> obj_lookup NAME_MAP s = VUndefined ->
  mapName (VStr s) = VStr (capitalize s).
Proof.
  intros Hne Hl. unfold mapName, truthy.
  destruct (String.eqb_spec s "") as [->|_]; [contradiction|].
  simpl. now rewrite Hl.
Qed.

(** Every key of the table and every inherited member starts with a
    lower-case letter or an underscore. *)
Lemma NAME_MAP_lookup_first (c : ascii) (rest : string) :
  is_ascii_lower c = false -> c <> "_"%char ->
  obj_lookup NAME_MAP (String c rest) = VUndefined.
Proof.
  intros Hlow Hund.
  destruct (NAME_MAP_lookup (String c rest))
    as [(H & _)|[(_ & H)|(_ & H & _)]]; [exact H| |].
  - destruct H as [(H & _)|[(H & _)|(H & _)]];
      injection H as -> _; discriminate.
  - unfold mem_string, OBJECT_PROTOTYPE in H. cbn -[String.eqb] in H.
    repeat (apply orb_prop in H; destruct H as [H|H]);
      try discriminate;
      apply String.eqb_eq in H; injection H as -> _;
      solve [discriminate | now destruct Hund].
Qed.

Lemma ascii_upper_is_not_lower (c : ascii) :
  is_ascii c = true -> is_ascii_lower (ascii_upper c) = false.
Proof.
  destruct c as [[] [] [] [] [] [] [] []]; intros H; try discriminate H;
    reflexivity.
Qed.

Lemma ascii_upper_not_underscore (c : ascii) :
  c <> "_"%char -> ascii_upper c <> "_"%char.
Proof.
  destruct c as [[] [] [] [] [] [] [] []]; intros H; try exact H;
    vm_compute; discriminate.
Qed.

Lemma ascii_upper_fixed (c : ascii) :
  is_ascii_lower c = false -> ascii_upper c = c.
Proof. unfold ascii_upper. now intros ->. Qed.

Lemma upper_is_not_lower (c : ascii) :
  is_ascii_upper c = true ->
  is_ascii_lower c = false /\ c <> "_"%char /\ is_ascii c = true.
Proof.
  destruct c as [[] [] [] [] [] [] [] []]; intros H; try discriminate H;
    repeat split; discriminate.
Qed.

Lemma nonascii_is_not_lower (c : ascii) :
  is_ascii c = false -> is_ascii_lower c = false /\ c <> "_"%char.
Proof.
  destruct c as [[] [] [] [] [] [] [] []]; intros H; try discriminate H;
    split; discriminate || reflexivity.
Qed.

Lemma mapName_settled (s : string) :
  settled s -> mapName (VStr s) = VStr s.
Proof.
  destruct s as [|c rest]; [reflexivity|]. unfold settled.
  destruct (is_ascii c) eqn:Hasc; intros H.
  - destruct (upper_is_not_lower c H) as (Hlow & Hund & _).
    rewrite mapName_unlisted;
      [|discriminate | now apply NAME_MAP_lookup_first].
    unfold capitalize. rewrite Hasc. now rewrite ascii_upper_fixed.
  - destruct (nonascii_is_not_lower c Hasc) as (Hlow & Hund).
    rewrite mapName_unlisted;
      [|discriminate | now apply NAME_MAP_lookup_first].
    unfold capitalize. rewrite Hasc. now rewrite H.
Qed.

(** The table answers first; otherwise the first character is put in upper
    case, as long as the name is not one that every object inherits. *)
Lemma mapName_own_or_capitalized (s : string) :
  s <> "" -> mem_string s OBJECT_PROTOTYPE = false ->
  mapName (VStr s) =
    if has_own NAME_MAP s then obj_get NAME_MAP s else VStr (capitalize s).
Proof.
  intros Hne Hmem.
  destruct (NAME_MAP_lookup s) as [(H & Hown & _)|[(Hown & H)|(_ & H & _)]].
  - rewrite Hown. now apply mapName_unlisted.
  - rewrite Hown. unfold mapName, obj_lookup, truthy. rewrite Hown.
    destruct (String.eqb_spec s "") as [->|_]; [contradiction|].
    destruct H as [(-> & _)|[(-> & _)|(-> & _)]]; reflexivity.
  - congruence.
Qed.

Lemma mapName_examples :
  mapName (VStr "todowrite") = VStr "TodoWrite"
  /\ mapName (VStr "my_tool") = VStr "My_tool"
  /\ mapName VUndefined = VUndefined
  /\ mapName VNull = VNull
  /\ mapName (VStr "") = VStr "".
Proof. repeat split; reflexivity. Qed.

(** C9, at the name "constructor": the name is not a key of the table, and
    the result is not "Constructor" but the function that the table object
    inherits under that name. *)
Theorem mapName_inherited_member :
  has_own NAME_MAP "constructor" = false
  /\ mapName (VStr "constructor") = VNative "constructor"
  /\ mapName (VStr "constructor") <> VStr "Constructor".
Proof. split; [reflexivity | split; [reflexivity | discriminate]]. Qed.

(** C10: [mapName] is idempotent, on strings, null, undefined and every
    other value, provided the Unicode case mapping settles. *)
Theorem mapName_idempotent :
  case_mapping_settles -> forall x, mapName (mapName x) = mapName x.
Proof.
  intros Hset x. destruct x as [| | | |s| | |]; try reflexivity.
  destruct s as [|c rest]; [reflexivity|].
  destruct (NAME_MAP_lookup (String c rest))
    as [(H & _)|[(Hown & H)|(_ & _ & H)]].
  - assert (Hne : String c rest <> "") by discriminate.
    rewrite (mapName_unlisted _ Hne H).
    unfold capitalize. destruct (is_ascii c) eqn:Hasc.
    + destruct (is_ascii_lower c) eqn:Hlow.
      * pose proof (ascii_upper_is_not_lower c Hasc) as Hup.
        assert (Hund : ascii_upper c <> "_"%char).
        { apply ascii_upper_not_underscore. intros ->. discriminate. }
        rewrite mapName_unlisted;
          [|discriminate | now apply NAME_MAP_lookup_first].
        unfold capitalize.
        replace (is_ascii (ascii_upper c)) with true.
        -- now rewrite (ascii_upper_fixed _ Hup).
        -- clear -Hasc. destruct c as [[] [] [] [] [] [] [] []];
             try discriminate Hasc; reflexivity.
      * rewrite (ascii_upper_fixed _ Hlow).
        rewrite (mapName_unlisted _ Hne H).
        unfold capitalize. rewrite Hasc. now rewrite (ascii_upper_fixed _ Hlow).
    + apply mapName_settled. now apply Hset.
  - destruct H as [(-> & _)|[(-> & _)|(-> & _)]]; reflexivity.
  - unfold mapName at 2. unfold mapName at 2. rewrite H. reflexivity.
Qed.


(** ** The sanitiser *)

Lemma is_str_true (v : value) (lit : string) :
  is_str v lit = true <-> v = VStr lit.
Proof.
  destruct v; simpl; try (split; discriminate).
  rewrite String.eqb_eq. split; [now intros -> | now intros [= ->]].
Qed.

Lemma is_str_false (v : value) (lit : string) :
  is_str v lit = false <-> v <> VStr lit.
Proof.
  rewrite <- is_str_true. destruct (is_str v lit); split; congruence.
Qed.

(** The two branches of [cleanUndefined], as the source writes them. *)
Lemma cleanUndefined_array (items : list value) :
  cleanUndefined (VArr items) =
  VArr (map cleanUndefined (filter keep_item items)).
Proof.
  simpl. f_equal. induction items as [|x items IH]; simpl; [reflexivity|].
  destruct (keep_item x); simpl; now rewrite IH.
Qed.

Lemma cleanUndefined_object (props : obj) :
  cleanUndefined (VObj props) = VObj (fold_left clean_step props []).
Proof. reflexivity. Qed.

Lemma clean_props_keys (props : obj) (k : string) :
  In k (map fst (clean_props props)) -> In k (map fst props).
Proof.
  unfold clean_props. induction props as [|[k' v] props IH]; simpl; [tauto|].
  destruct (keep_item v); simpl; tauto.
Qed.

Lemma fold_clean_step (props acc : obj) :
  NoDup (map fst props) ->
  (forall k, In k (map fst props) -> ~ In k (map fst acc)) ->
  fold_left clean_step props acc = (acc ++ clean_props props)%list.
Proof.
  revert acc. induction props as [|[k v] props IH]; intros acc Hnd Hfresh.
  - simpl. now rewrite app_nil_r.
  - simpl in *. inversion Hnd as [|? ? Hk Hnd']; subst.
    unfold clean_step at 2, clean_props, keep_item. simpl.
    destruct (is_str v UNDEFINED_MARK); simpl.
    + apply IH; [exact Hnd'|]. intros k' Hin. apply Hfresh. now right.
    + rewrite obj_set_fresh by (apply Hfresh; now left).
      rewrite IH; [now rewrite <- app_assoc | exact Hnd' |].
      intros k' Hin. rewrite map_app, in_app_iff. simpl.
      intros [Hacc|[->|[]]]; [|contradiction].
      revert Hacc. apply Hfresh. now right.
Qed.

(** On an object with distinct keys the loop is a filter followed by a
    map. *)
Lemma cleanUndefined_object_distinct (props : obj) :
  NoDup (map fst props) ->
  cleanUndefined (VObj props) = VObj (clean_props props).
Proof.
  intros Hnd. rewrite cleanUndefined_object.
  now rewrite fold_clean_step by (simpl; tauto).
Qed.

Lemma cleanUndefined_leaf (v : value) :
  is_container v = false -> cleanUndefined v = v.
Proof. destruct v; simpl; congruence. Qed.

Lemma cleanUndefined_sound (v : value) :
  plain_json v ->
  Pruned v (cleanUndefined v)
  /\ (v <> VStr UNDEFINED_MARK -> contains_mark (cleanUndefined v) = false).
Proof.
  induction v as [| | | |s|items IH|props IH|m] using value_ind; intros Hj;
    try (split; [now apply Pruned_leaf | reflexivity]).
  - split; [now apply Pruned_leaf|]. simpl. intros Hne.
    destruct (String.eqb_spec s UNDEFINED_MARK); congruence.
  - inversion Hj as [| | | |? Hitems|]; subst.
    rewrite cleanUndefined_array.
    assert (H : PrunedItems items (map cleanUndefined (filter keep_item items))
                /\ existsb contains_mark
                     (map cleanUndefined (filter keep_item items)) = false).
    { induction items as [|x items IHitems]; cbn [filter map existsb].
      - split; [constructor | reflexivity].
      - inversion IH as [|? ? Hx IH']; inversion Hitems as [|? ? Hjx Hj'];
          subst.
        destruct (IHitems IH' (plain_arr _ Hj') Hj') as [Hp He].
        destruct (Hx Hjx) as [Hpx Hcx].
        change (keep_item x) with (negb (is_str x UNDEFINED_MARK)).
        destruct (is_str x UNDEFINED_MARK) eqn:Hm.
        + apply is_str_true in Hm. subst x. cbn [negb].
          split; [now constructor | exact He].
        + apply is_str_false in Hm. cbn [negb map existsb fst snd].
          split; [now constructor|].
          now rewrite (Hcx Hm), He. }
    destruct H as [Hp He]. split; [now constructor | intros _; exact He].
  - inversion Hj as [| | | | |? Hnd Hproto Hprops]; subst.
    rewrite cleanUndefined_object_distinct by exact Hnd.
    assert (H : PrunedProps props (clean_props props)
                /\ existsb (fun kv => contains_mark (snd kv))
                     (clean_props props) = false).
    { clear Hnd Hproto Hj. unfold clean_props.
      induction props as [|[k x] props IHprops];
        cbn [filter map existsb fst snd].
      - split; [constructor | reflexivity].
      - inversion IH as [|? ? Hx IH']; inversion Hprops as [|? ? Hjx Hj'];
          subst. cbn [fst snd] in *.
        destruct (IHprops IH' Hj') as [Hp He].
        destruct (Hx Hjx) as [Hpx Hcx].
        change (keep_item x) with (negb (is_str x UNDEFINED_MARK)).
        destruct (is_str x UNDEFINED_MARK) eqn:Hm.
        + apply is_str_true in Hm. subst x. cbn [negb].
          split; [now constructor | exact He].
        + apply is_str_false in Hm. cbn [negb map existsb fst snd].
          split; [now constructor|].
          now rewrite (Hcx Hm), He. }
    destruct H as [Hp He]. split; [now constructor | intros _; exact He].
Qed.

(** [Pruned] leaves no choice: the pruned tree is unique. *)
Lemma Pruned_functional (v v1 v2 : value) :
  Pruned v v1 -> Pruned v v2 -> v1 = v2.
Proof.
  revert v1 v2.
  induction v as [| | | |s|items IH|props IH|m] using value_ind;
    intros v1 v2 Ha Hb;
    try (inversion Ha; inversion Hb; subst; reflexivity).
  - inversion Ha as [? Hl| ? a' Hia |]; subst; [discriminate Hl|].
    inversion Hb as [? Hl| ? b' Hib |]; subst; [discriminate Hl|].
    f_equal. clear Ha Hb. revert a' b' Hia Hib.
    induction IH as [|x items Hx _ IHitems]; intros a' b' Hia Hib.
    + inversion Hia; inversion Hib; reflexivity.
    + inversion Hia as [| ? ? Ha' | ? xa ? ? Hna Hpa Ha']; subst;
        inversion Hib as [| ? ? Hb' | ? xb ? ? Hnb Hpb Hb']; subst;
        try contradiction.
      * now apply IHitems.
      * f_equal; [now apply Hx | now apply IHitems].
  - inversion Ha as [? Hl| | ? a' Hia]; subst; [discriminate Hl|].
    inversion Hb as [? Hl| | ? b' Hib]; subst; [discriminate Hl|].
    f_equal. clear Ha Hb. revert a' b' Hia Hib.
    induction IH as [|[k x] props Hx _ IHprops]; intros a' b' Hia Hib.
    + inversion Hia; inversion Hib; reflexivity.
    + cbn [snd] in Hx.
      inversion Hia as [| ? ? ? Ha' | ? ? xa ? ? Hna Hpa Ha']; subst;
        inversion Hib as [| ? ? ? Hb' | ? ? xb ? ? Hnb Hpb Hb']; subst;
        try contradiction.
      * now apply IHprops.
      * f_equal; [f_equal; now apply Hx | now apply IHprops].
Qed.

(** C1, amended: on a tree that is not the bare marker, the result holds
    the marker at no depth and is the input with exactly the marker-valued
    array elements and properties taken out. *)
Theorem cleanUndefined_prunes (v : value) :
  plain_json v -> v <> VStr UNDEFINED_MARK ->
  contains_mark (cleanUndefined v) = false /\ Pruned v (cleanUndefined v).
Proof.
  intros Hj Hne. destruct (cleanUndefined_sound v Hj) as [Hp Hc].
  split; [now apply Hc | exact Hp].
Qed.


(** ** The response repair *)

Lemma obj_get_app_fresh (pre o : obj) (k : string) :
  ~ In k (map fst pre) -> obj_get (pre ++ o)%list k = obj_get o k.
Proof.
  induction pre as [|[k' v'] pre IH]; simpl; intros Hnot; [reflexivity|].
  destruct (String.eqb_spec k' k) as [->|_]; [exfalso; apply Hnot; now left|].
  apply IH. tauto.
Qed.

Lemma obj_set_app_fresh (pre o : obj) (k : string) (v : value) :
  ~ In k (map fst pre) ->
  obj_set (pre ++ o)%list k v = (pre ++ obj_set o k v)%list.
Proof.
  induction pre as [|[k' v'] pre IH]; simpl; intros Hnot; [reflexivity|].
  destruct (String.eqb_spec k' k) as [->|_]; [exfalso; apply Hnot; now left|].
  f_equal. apply IH. tauto.
Qed.

Lemma repairValue_spec (v : value) : RepairedValue v (repairValue v).
Proof.
  destruct v; try (apply Repaired_untouched; discriminate).
  simpl. destruct (looks_structured s) eqn:Hs.
  - destruct (JSON_parse s) eqn:Hp; now constructor.
  - apply Repaired_untouched. now intros ? [= <-].
Qed.

Lemma repairKey_head (pre rest : obj) (k : string) (v : value) :
  ~ In k (map fst pre) ->
  repairKey (pre ++ (k, v) :: rest)%list k
  = (pre ++ (k, repairValue v) :: rest)%list.
Proof.
  intros Hpre. unfold repairKey. rewrite obj_get_app_fresh by exact Hpre.
  simpl. rewrite String.eqb_refl.
  assert (Hset : forall x, obj_set (pre ++ (k, v) :: rest)%list k x
                           = (pre ++ (k, x) :: rest)%list).
  { intros x. rewrite obj_set_app_fresh by exact Hpre. simpl.
    now rewrite String.eqb_refl. }
  destruct v; try reflexivity. simpl.
  destruct (looks_structured s); [|reflexivity].
  destruct (JSON_parse s); [apply Hset | reflexivity].
Qed.

Lemma fold_repairKey (todo pre : obj) :
  NoDup (map fst todo) ->
  (forall k, In k (map fst todo) -> ~ In k (map fst pre)) ->
  fold_left repairKey (map fst todo) (pre ++ todo)%list
  = (pre ++ map (fun kv => (fst kv, repairValue (snd kv))) todo)%list.
Proof.
  revert pre. induction todo as [|[k v] todo IH]; intros pre Hnd Hfresh;
    [reflexivity|].
  simpl in *. inversion Hnd as [|? ? Hk Hnd']; subst.
  rewrite repairKey_head by (apply Hfresh; now left).
  replace (pre ++ (k, repairValue v) :: todo)%list
    with ((pre ++ [(k, repairValue v)]) ++ todo)%list
    by now rewrite <- app_assoc.
  rewrite IH; [now rewrite <- app_assoc | exact Hnd' |].
  intros k' Hin. rewrite map_app, in_app_iff. simpl.
  intros [Hpre|[->|[]]]; [|contradiction].
  revert Hpre. apply Hfresh. now right.
Qed.

Lemma repairInput_distinct (input : obj) :
  NoDup (map fst input) ->
  repairInput input = map (fun kv => (fst kv, repairValue (snd kv))) input.
Proof.
  intros Hnd. unfold repairInput.
  apply (fold_repairKey input [] Hnd). simpl. tauto.
Qed.

Lemma repairInput_spec (input : obj) :
  NoDup (map fst input) -> RepairedInput input (repairInput input).
Proof.
  intros Hnd. rewrite repairInput_distinct by exact Hnd.
  unfold RepairedInput. clear Hnd.
  induction input as [|[k v] input IH]; simpl; constructor; [|exact IH].
  split; [reflexivity | apply repairValue_spec].
Qed.

Lemma repairBlock_spec (block : value) :
  (forall input, get_opt block "input" = VObj input -> NoDup (map fst input)) ->
  RepairedBlock block (repairBlock block).
Proof.
  intros Hnd.
  destruct block as [| | | | | |b|];
    try (apply Repaired_other; left; discriminate).
  simpl in *. destruct (is_str (obj_get b "type") "tool_use") eqn:Hty.
  - apply is_str_true in Hty.
    destruct (obj_get b "input") as [| | | | |items|input|] eqn:Hin;
      try (apply Repaired_other; right; simpl; now rewrite Hin).
    + apply Repaired_array_input with (items := items); [exact Hty | exact Hin|].
      clear. induction items; simpl; constructor;
        [apply repairValue_spec | assumption].
    + apply Repaired_object_input with (input := input);
        [exact Hty | exact Hin|].
      apply repairInput_spec. now apply Hnd.
  - apply is_str_false in Hty. apply Repaired_other. now left.
Qed.

(** C7: the response repair, block by block and value by value; it is a
    total function, the string "[1,2,3]" becomes the array of three numbers
    as soon as [JSON.parse] reads it so, and a response whose value is
    already an array comes back as it is. *)
Theorem transformResponseBody_repairs :
  (forall b blocks,
      obj_get b "content" = VArr blocks -> distinct_input_keys blocks ->
      exists blocks',
        transformResponseBody (VObj b)
        = VObj (obj_set b "content" (VArr blocks'))
        /\ Forall2 RepairedBlock blocks blocks')
  /\ (forall body,
         (forall blocks, get_opt body "content" <> VArr blocks) ->
         transformResponseBody body = body)
  /\ (JSON_parse "[1,2,3]" = Some (VArr [VNum 1; VNum 2; VNum 3]) ->
      transformResponseBody (tool_use_response (VStr "[1,2,3]"))
      = tool_use_response (VArr [VNum 1; VNum 2; VNum 3]))
  /\ transformResponseBody (tool_use_response (VArr [VNum 1; VNum 2; VNum 3]))
     = tool_use_response (VArr [VNum 1; VNum 2; VNum 3]).
Proof.
  repeat apply conj.
  - intros b blocks Hc Hnd. exists (map repairBlock blocks). split.
    + simpl. now rewrite Hc.
    + clear Hc. induction blocks as [|block blocks IH]; simpl; constructor.
      * apply repairBlock_spec. intros input. apply Hnd. now left.
      * apply IH. intros blk input Hin. apply Hnd. now right.
  - intros body Hc. destruct body; try reflexivity. simpl in *.
    destruct (obj_get props "content"); try reflexivity.
    now destruct (Hc items).
  - intros Hparse. unfold tool_use_response. cbn -[JSON_parse].
    unfold repairInput, repairKey. cbn -[JSON_parse]. now rewrite Hparse.
  - reflexivity.
Qed.


(** ** One line of the event stream *)

Lemma mapName_truthy (x : value) :
  truthy x = true -> nullish_or (mapName x) x = mapName x.
Proof.
  destruct x; try discriminate; try reflexivity. intros Hx.
  unfold mapName. rewrite Hx. simpl.
  destruct (truthy (obj_lookup NAME_MAP s)) eqn:Hl; [|reflexivity].
  now destruct (obj_lookup NAME_MAP s).
Qed.

Lemma is_tool_use_start_spec (data : value) :
  is_tool_use_start data = Some true <-> ToolUseStart data.
Proof.
  unfold is_tool_use_start, ToolUseStart.
  destruct data as [| | | | | |d|]; simpl;
    try (split; [discriminate | intros (H & _); discriminate]).
  rewrite <- !is_str_true.
  destruct (is_str (obj_get d "type") "content_block_start");
    destruct (is_str (get_opt (obj_get d "content_block") "type") "tool_use");
    destruct (truthy (get_opt (obj_get d "content_block") "name"));
    simpl; split; try discriminate; try tauto;
    intros (? & ? & ?); discriminate.
Qed.

Lemma ToolUseStart_shape (data : value) :
  ToolUseStart data ->
  exists d cb, data = VObj d /\ obj_get d "content_block" = VObj cb
               /\ truthy (obj_get cb "name") = true.
Proof.
  intros (Hty & Hcb & Hname).
  destruct data as [| | | | | |d|]; try discriminate. simpl in *.
  destruct (obj_get d "content_block") as [| | | | | |cb|] eqn:Hd;
    try discriminate.
  now exists d, cb.
Qed.

(** C8: the five cases of the line rewrite. *)
Theorem transformSSELine_cases (line : string) :
  (prefix "data:" line = false -> transformSSELine line = line)
  /\ (payload line = "[DONE]" -> transformSSELine line = line)
  /\ (JSON_parse (payload line) = None -> transformSSELine line = line)
  /\ (forall data,
         JSON_parse (payload line) = Some data -> ~ ToolUseStart data ->
         transformSSELine line = line)
  /\ (forall data,
         prefix "data:" line = true ->
         payload line <> "" -> payload line <> "[DONE]" ->
         JSON_parse (payload line) = Some data -> ToolUseStart data ->
         exists d cb,
           data = VObj d /\ obj_get d "content_block" = VObj cb
           /\ transformSSELine line
              = "data: " ++
                JSON_stringify
                  (VObj (obj_set d "content_block"
                           (VObj (obj_set cb "name"
                                    (mapName (obj_get cb "name"))))))).
Proof.
  unfold transformSSELine, payload. repeat apply conj.
  - now intros ->.
  - intros ->. destruct (prefix "data:" line); reflexivity.
  - intros ->. destruct (prefix "data:" line); simpl; [|reflexivity].
    now destruct (_ || _).
  - intros data -> Hnot. destruct (prefix "data:" line); simpl; [|reflexivity].
    destruct (_ || _); [reflexivity|].
    destruct (is_tool_use_start data) as [[]|] eqn:Hs; try reflexivity.
    now apply is_tool_use_start_spec in Hs.
  - intros data Hpre Hne Hdone Hparse Hstart. rewrite Hpre. cbn [negb].
    destruct (String.eqb_spec (trim (slice 5 line)) ""); [contradiction|].
    destruct (String.eqb_spec (trim (slice 5 line)) "[DONE]"); [contradiction|].
    cbn [orb]. rewrite Hparse.
    destruct (ToolUseStart_shape data Hstart) as (d & cb & -> & Hcb & Hn).
    exists d, cb. repeat split; [exact Hcb|].
    apply is_tool_use_start_spec in Hstart. rewrite Hstart.
    unfold rename_content_block, get_opt. rewrite Hcb.
    now rewrite (mapName_truthy _ Hn).
Qed.


(** ** The system prompt *)

Lemma filterM_typed_segments (segments : list value) :
  Forall typed_segment segments ->
  exists kept,
    filterM is_text_segment segments = Some kept
    /\ Forall (fun s => exists t, get_opt s "text" = VStr t) kept.
Proof.
  induction 1 as [|seg segments (o & -> & Htext) _ (kept & Hk & Hall)].
  - exists []. split; [reflexivity | constructor].
  - cbn [filterM]. unfold is_text_segment at 1. cbn [get_prop get_opt bind].
    rewrite Hk. cbn [bind].
    destruct (is_str (obj_get o "type") "text" && truthy (obj_get o "text"))
      eqn:Hkeep.
    + exists (VObj o :: kept). split; [reflexivity|]. constructor; [|exact Hall].
      apply andb_prop in Hkeep. destruct Hkeep as [_ Ht].
      destruct Htext as [Hu|[t Ht']]; [now rewrite Hu in Ht | now exists t].
    + now exists kept.
Qed.

Lemma join_texts (sep : string) (kept : list value) :
  Forall (fun s => exists t, get_opt s "text" = VStr t) kept ->
  exists joined, join sep (map (fun s => get_opt s "text") kept) = Some joined.
Proof.
  intros Hall. unfold join.
  assert (H : exists strs,
             mapM join_item (map (fun s => get_opt s "text") kept) = Some strs).
  { induction Hall as [|seg kept (t & Ht) _ (strs & Hs)].
    - now exists [].
    - cbn [map mapM]. rewrite Ht. cbn [join_item bind]. rewrite Hs.
      now exists (t :: strs). }
  destruct H as (strs & ->). now eexists.
Qed.

Lemma clientSystem_of_returns (body : obj) :
  system_shape (obj_get body "system") ->
  exists cs, clientSystem_of body = Some cs.
Proof.
  unfold clientSystem_of.
  intros [->|[(s & ->)|(segments & -> & Hseg)]].
  - now eexists.
  - destruct (truthy (VStr s)); now eexists.
  - cbn [truthy].
    destruct (filterM_typed_segments segments Hseg) as (kept & -> & Hall).
    cbn [bind].
    destruct (join_texts (LF ++ LF) kept Hall) as (joined & Hj).
    destruct (map (fun s => get_opt s "text") kept) eqn:Hm; [now eexists|].
    rewrite Hj. now eexists.
Qed.

Lemma findIndex_user_returns (messages : list value) :
  Forall is_object messages -> exists idx, findIndex_user messages = Some idx.
Proof.
  induction 1 as [|m messages (o & ->) _ (idx & Hi)]; [now eexists|].
  cbn [findIndex_user get_prop bind].
  destruct (is_str (obj_get o "role") "user"); [now eexists|].
  rewrite Hi. now eexists.
Qed.



Lemma update_nth_middle {A : Type} (f : A -> A) (before after : list A) (x : A) :
  update_nth (List.length before) f (before ++ x :: after)%list
  = (before ++ f x :: after)%list.
Proof. induction before; simpl; [reflexivity | now f_equal]. Qed.

Lemma system_then_messages (body : obj) :
  obj_get (obj_set body "system" CLAUDE_CODE_SYSTEM) "messages"
  = obj_get body "messages".
Proof. apply obj_get_set_other. discriminate. Qed.

Lemma injectSystemPrompt_overwrites (body body' : obj) :
  injectSystemPrompt body = Some body' ->
  obj_get body' "system" = CLAUDE_CODE_SYSTEM.
Proof.
  unfold injectSystemPrompt.
  destruct (clientSystem_of body) as [cs|]; [cbn [bind] | discriminate].
  assert (Hsys : forall x,
             obj_get (obj_set (obj_set body "system" CLAUDE_CODE_SYSTEM)
                              "messages" x) "system" = CLAUDE_CODE_SYSTEM).
  { intros x. rewrite obj_get_set_other by discriminate.
    apply obj_get_set_same. }
  pose proof (obj_get_set_same body "system" CLAUDE_CODE_SYSTEM) as Hsame.
  destruct cs; try (intros [= <-]; exact Hsame).
  destruct (obj_get _ "messages"); try (intros [= <-]; exact Hsame).
  destruct (truthy (VStr s)); [|intros [= <-]; exact Hsame].
  destruct (findIndex_user items) as [[i|]|]; cbn [bind];
    [intros [= <-]; apply Hsys | intros [= <-]; exact Hsame | discriminate].
Qed.

(** C2: whenever [injectSystemPrompt] returns, [system] is the canonical
    array of two segments; and it returns on every body whose [system] is
    absent, a string or a sequence of typed segments and whose messages are
    objects. *)
Theorem injectSystemPrompt_system (body : obj) :
  (forall body', injectSystemPrompt body = Some body' ->
                 obj_get body' "system" = CLAUDE_CODE_SYSTEM
                 /\ exists identity preamble,
                      obj_get body' "system" = VArr [identity; preamble])
  /\ (system_shape (obj_get body "system") ->
      message_list (obj_get body "messages") ->
      exists body', injectSystemPrompt body = Some body').
Proof.
  split.
  - intros body' H. apply injectSystemPrompt_overwrites in H. rewrite H.
    split; [reflexivity | now eexists _, _].
  - intros Hsys Hmsgs. unfold injectSystemPrompt.
    destruct (clientSystem_of_returns body Hsys) as (cs & ->). cbn [bind].
    rewrite system_then_messages.
    destruct cs; try now eexists.
    destruct (obj_get body "messages") as [| | | | |ms| |] eqn:Hm;
      try now eexists.
    destruct (truthy (VStr s)); [|now eexists].
    destruct (findIndex_user_returns ms (Hmsgs ms eq_refl)) as (idx & ->).
    cbn [bind]. destruct idx; now eexists.
Qed.



(** ** The thinking parameter *)

Lemma includes_nonempty (p s : string) :
  p <> "" -> includes p s = true -> s <> "".
Proof.
  intros Hp H ->. destruct p; [contradiction | discriminate].
Qed.

(** C5, amended: a model that matches ["claude-3-7-sonnet"] and none of
    the adaptive patterns gets the enabled mode with budget 10000, and
    [max_tokens] (absent, or a number) ends at the larger of its value and
    14096; nothing else moves.  A body that has a [thinking] property comes
    back as it is. *)
Theorem injectThinking_enabled (body : obj) :
  (obj_get body "thinking" <> VUndefined -> injectThinking body = Some body)
  /\ (forall model,
         obj_get body "thinking" = VUndefined ->
         obj_get body "model" = VStr model ->
         includes "claude-3-7-sonnet" (toLowerCase model) = true ->
         existsb (fun p => includes p (toLowerCase model)) CLAUDE_46_PATTERNS
         = false ->
         obj_get body "max_tokens" = VUndefined
         \/ (exists n, obj_get body "max_tokens" = VNum n) ->
         exists body' n',
           injectThinking body = Some body'
           /\ obj_get body' "thinking"
              = VObj [("type", VStr "enabled"); ("budget_tokens", VNum 10000)]
           /\ obj_get body' "max_tokens" = VNum n'
           /\ (14096 <= n')%Z
           /\ (obj_get body "max_tokens" = VUndefined -> n' = 14096%Z)
           /\ (forall n, obj_get body "max_tokens" = VNum n ->
                         n' = Z.max n 14096)
           /\ (forall k, k <> "thinking" -> k <> "max_tokens" ->
                         obj_get body' k = obj_get body k)).
Proof.
  split.
  - intros Hth. unfold injectThinking.
    destruct (obj_get body "thinking"); try reflexivity. contradiction.
  - intros model Hth Hmodel Hinc H46 Hmax.
    assert (Hne : model <> "").
    { intros ->. discriminate. }
    unfold injectThinking. rewrite Hth, Hmodel. cbn [is_undefined negb truthy].
    destruct (String.eqb_spec model "") as [Heq|_]; [contradiction|].
    cbn [negb].
    unfold isClaude46Model, isClaudeThinkingModel, matches_patterns.
    cbn [bind]. rewrite H46.
    replace (existsb (fun p => includes p (toLowerCase model))
               CLAUDE_THINKING_PATTERNS) with true
      by (unfold CLAUDE_THINKING_PATTERNS; cbn [existsb]; rewrite Hinc;
          now rewrite !orb_true_r).
    rewrite (obj_get_set_other body "thinking" "max_tokens") by discriminate.
    set (body1 := obj_set body "thinking" THINKING_ENABLED).
    assert (Hth1 : forall x, obj_get (obj_set body1 "max_tokens" x) "thinking"
                             = THINKING_ENABLED).
    { intros x. rewrite obj_get_set_other by discriminate.
      apply obj_get_set_same. }
    assert (Hother1 : forall k, k <> "thinking" ->
                                obj_get body1 k = obj_get body k).
    { intros k Hk. apply obj_get_set_other. congruence. }
    assert (Hother2 : forall x k, k <> "thinking" -> k <> "max_tokens" ->
                        obj_get (obj_set body1 "max_tokens" x) k = obj_get body k).
    { intros x k Hk1 Hk2. rewrite obj_get_set_other by congruence.
      now apply Hother1. }
    change (DEFAULT_THINKING_BUDGET + 4096)%Z with 14096%Z.
    destruct Hmax as [Hmax|(n & Hmax)]; rewrite Hmax; cbn [truthy negb bind js_lt].
    + exists (obj_set body1 "max_tokens" (VNum 14096)), 14096%Z.
      repeat apply conj; try reflexivity; try lia.
      * apply Hth1.
      * apply obj_get_set_same.
      * discriminate.
      * apply Hother2.
    + destruct (Z.eqb_spec n 0) as [->|Hn0]; cbn [negb bind].
      * exists (obj_set body1 "max_tokens" (VNum 14096)), 14096%Z.
        repeat apply conj; try reflexivity; try lia.
        -- apply Hth1.
        -- apply obj_get_set_same.
        -- now intros ? [= <-].
        -- apply Hother2.
      * destruct (Z.ltb_spec n 14096).
        -- exists (obj_set body1 "max_tokens" (VNum 14096)), 14096%Z.
           repeat apply conj; try reflexivity; try lia.
           ++ apply Hth1.
           ++ apply obj_get_set_same.
           ++ intros ? [= <-]. lia.
           ++ apply Hother2.
        -- exists body1, n.
           repeat apply conj; try reflexivity; try lia.
           ++ apply obj_get_set_same.
           ++ now rewrite Hother1 by discriminate.
           ++ discriminate.
           ++ intros ? [= <-]. lia.
           ++ intros k Hk _. now apply Hother1.
Qed.


(** ** The relay *)

Lemma append_assoc (a b c : string) : (a ++ b) ++ c = a ++ (b ++ c).
Proof. induction a; simpl; [reflexivity | now f_equal]. Qed.

Lemma append_nil_r (a : string) : a ++ "" = a.
Proof. induction a; simpl; [reflexivity | now f_equal]. Qed.

Lemma prefix_length (p s : string) :
  prefix p s = true -> length p <= length s.
Proof.
  revert s. induction p as [|c p IH]; intros s H; simpl; [lia|].
  destruct s as [|d s]; [discriminate|]. simpl in *.
  destruct (ascii_dec c d); [|discriminate]. apply IH in H. lia.
Qed.

(** A pattern that fits in [s] is a prefix of [s ++ t] exactly when it is
    one of [s]. *)
Lemma prefix_append_fits (p s t : string) :
  length p <= length s -> prefix p (s ++ t) = prefix p s.
Proof.
  revert s. induction p as [|c p IH]; intros s H.
  - destruct (s ++ t); now destruct s.
  - destruct s as [|d s]; simpl in *; [lia|].
    destruct (ascii_dec c d); [apply IH; lia | reflexivity].
Qed.

Lemma slice_append (n : nat) (s t : string) :
  n <= length s -> slice n (s ++ t) = slice n s ++ t.
Proof.
  revert s. induction n as [|n IH]; intros s H; [reflexivity|].
  destruct s as [|c s]; simpl in *; [lia|]. apply IH. lia.
Qed.

Lemma slice_length (n : nat) (s : string) :
  n <= length s -> length (slice n s) = length s - n.
Proof.
  revert s. induction n as [|n IH]; intros s H; simpl; [lia|].
  destruct s as [|c s]; simpl in *; [lia|]. apply IH. lia.
Qed.

Lemma find_sep_length (sep s before after : string) :
  find_sep sep s = Some (before, after) ->
  length s = length before + length sep + length after.
Proof.
  revert before. induction s as [|c s IH]; intros before; cbn [find_sep].
  - destruct (prefix sep "") eqn:Hp; [|discriminate]. intros [= <- <-].
    apply prefix_length in Hp. simpl in *.
    replace (length sep) with 0 by lia. simpl. lia.
  - destruct (prefix sep (String c s)) eqn:Hp.
    + intros [= <- <-]. apply prefix_length in Hp.
      rewrite slice_length by exact Hp. change (length "") with 0. lia.
    + destruct (find_sep sep s) as [[b a]|]; [|discriminate].
      intros [= <- <-]. specialize (IH b eq_refl). simpl. lia.
Qed.

(** A separator found in [s] is found at the same place in [s ++ t]. *)
Lemma find_sep_append (sep s t before after : string) :
  find_sep sep s = Some (before, after) ->
  find_sep sep (s ++ t) = Some (before, after ++ t).
Proof.
  revert before. induction s as [|c s IH]; intros before H.
  - pose proof (find_sep_length _ _ _ _ H) as Hl. simpl in Hl.
    destruct sep; [|simpl in Hl; lia]. simpl in H. injection H as <- <-.
    now destruct t.
  - pose proof (find_sep_length _ _ _ _ H) as Hl.
    change (String c s ++ t) with (String c (s ++ t)).
    cbn [find_sep] in H |- *.
    change (String c (s ++ t)) with (String c s ++ t).
    rewrite prefix_append_fits by lia.
    destruct (prefix sep (String c s)) eqn:Hp.
    + injection H as <- <-.
      now rewrite slice_append by now apply prefix_length.
    + destruct (find_sep sep s) as [[b a]|] eqn:Hf; [|discriminate].
      injection H as <- <-. now rewrite (IH b eq_refl).
Qed.

Lemma split_fuel_stable (sep : string) :
  sep <> "" ->
  forall m n s, length s <= m -> length s <= n ->
                split_fuel m sep s = split_fuel n sep s.
Proof.
  intros Hsep. induction m as [|m IH]; intros n s Hm Hn.
  - destruct s; [|simpl in Hm; lia]. destruct n; [reflexivity|].
    simpl. destruct sep; [contradiction | reflexivity].
  - destruct n as [|n].
    + destruct s; [|simpl in Hn; lia]. simpl.
      destruct sep; [contradiction | reflexivity].
    + cbn [split_fuel].
      destruct (find_sep sep s) as [[b a]|] eqn:Hf; [|reflexivity].
      apply find_sep_length in Hf.
      assert (0 < length sep) by (destruct sep; [contradiction | simpl; lia]).
      f_equal. apply IH; lia.
Qed.

Lemma split_fuel_enough (sep : string) (n : nat) (s : string) :
  sep <> "" -> length s <= n ->
  split_fuel n sep s = split_fuel (length s) sep s.
Proof. intros Hsep H. apply split_fuel_stable; [exact Hsep | exact H | lia]. Qed.

(** The defining equation of [split]. *)
Lemma split_unfold (sep s : string) :
  sep <> "" ->
  split sep s =
  match find_sep sep s with
  | None => [s]
  | Some (before, after) => before :: split sep after
  end.
Proof.
  intros Hsep. unfold split.
  destruct (find_sep sep s) as [[b a]|] eqn:Hf.
  - pose proof (find_sep_length _ _ _ _ Hf) as Hl.
    assert (0 < length sep) by (destruct sep; [contradiction | simpl; lia]).
    destruct (length s) as [|n] eqn:Hn; [lia|].
    cbn [split_fuel]. rewrite Hf. f_equal.
    apply split_fuel_enough; [exact Hsep | lia].
  - destruct (length s); cbn [split_fuel]; [reflexivity | now rewrite Hf].
Qed.

Lemma split_nonempty (sep s : string) : split sep s <> [].
Proof.
  unfold split. destruct (length s); cbn [split_fuel]; [discriminate|].
  destruct (find_sep sep s) as [[b a]|]; discriminate.
Qed.

Lemma last_app_nonempty {A : Type} (l l' : list A) (d : A) :
  l' <> [] -> last (l ++ l') d = last l' d.
Proof.
  intros Hl'. induction l as [|x l IH]; [reflexivity|].
  cbn [app last]. destruct (l ++ l')%list eqn:Hll; [|exact IH].
  apply app_eq_nil in Hll. now destruct Hll.
Qed.

(** Splitting [s ++ t]: the complete parts of [s], then the split of what
    [s] left over followed by [t]. *)
Lemma split_append (sep s t : string) :
  sep <> "" ->
  split sep (s ++ t) =
  (removelast (split sep s) ++ split sep (last (split sep s) "" ++ t))%list.
Proof.
  intros Hsep.
  remember (length s) as n eqn:Hn. revert s Hn.
  induction n as [n IH] using lt_wf_ind. intros s ->.
  rewrite (split_unfold sep s Hsep).
  destruct (find_sep sep s) as [[b a]|] eqn:Hf.
  - rewrite (split_unfold sep (s ++ t) Hsep), (find_sep_append _ _ t _ _ Hf).
    pose proof (find_sep_length _ _ _ _ Hf) as Hl.
    assert (0 < length sep) by (destruct sep; [contradiction | simpl; lia]).
    rewrite (IH (length a) ltac:(lia) a eq_refl).
    pose proof (split_nonempty sep a) as Hne.
    replace (removelast (b :: split sep a))
      with (b :: removelast (split sep a))
      by (simpl; now destruct (split sep a)).
    replace (last (b :: split sep a) "") with (last (split sep a) "")
      by (simpl; now destruct (split sep a)).
    reflexivity.
  - reflexivity.
Qed.

Lemma feed_relay_after (s text : string) :
  feed (relay_after s) text = relay_after (s ++ text).
Proof.
  unfold feed, relay_after. cbn [buffer written].
  assert (Hsep : LF ++ LF <> "") by discriminate.
  rewrite (split_append (LF ++ LF) s text Hsep).
  pose proof (split_nonempty (LF ++ LF) (last (split (LF ++ LF) s) "" ++ text))
    as Hne.
  rewrite last_app_nonempty by exact Hne.
  rewrite removelast_app by exact Hne.
  now rewrite map_app.
Qed.

Lemma fold_feed (texts : list string) (s : string) :
  fold_left feed texts (relay_after s) = relay_after (s ++ whole texts).
Proof.
  revert s. induction texts as [|text texts IH]; intros s; cbn [fold_left whole fold_right].
  - now rewrite append_nil_r.
  - rewrite feed_relay_after, IH. now rewrite append_assoc.
Qed.

(** What the relay writes depends on the text that arrived, not on how it
    was cut into pieces. *)
Lemma relay_text_whole (texts : list string) :
  relay_text texts = finish (relay_after (whole texts)).
Proof.
  unfold relay_text. change relay_start with (relay_after "").
  now rewrite fold_feed.
Qed.

Lemma relay_text_chunking (texts texts' : list string) :
  whole texts = whole texts' -> relay_text texts = relay_text texts'.
Proof. intros H. now rewrite !relay_text_whole, H. Qed.


Lemma toString_utf8_ascii (chunk rest : list Byte.byte) :
  forallb is_ascii_byte chunk = true ->
  toString_utf8 (chunk ++ rest)
  = string_of_list_byte chunk ++ toString_utf8 rest.
Proof.
  unfold toString_utf8. induction chunk as [|b chunk IH]; intros H;
    [reflexivity|].
  cbn [forallb] in H. apply andb_prop in H. destruct H as [Hb H].
  cbn [app utf8_decode]. unfold classify.
  unfold is_ascii_byte in Hb. apply N.ltb_lt in Hb.
  replace (Byte.to_N b <=? 127)%N with true by (symmetry; apply N.leb_le; lia).
  rewrite (IH H). reflexivity.
Qed.

(** X1: A stream of ASCII bytes is relayed the same way however it is cut. *)
Lemma relay_chunking_ascii (chunks : list (list Byte.byte)) :
  forallb (forallb is_ascii_byte) chunks = true ->
  relay chunks = relay [List.concat chunks].
Proof.
  intros H. unfold relay. apply relay_text_chunking.
  cbn [map whole fold_right]. rewrite append_nil_r.
  induction chunks as [|chunk chunks IH]; [reflexivity|].
  cbn [forallb] in H. apply andb_prop in H. destruct H as [Hc H].
  cbn [map whole fold_right List.concat].
  rewrite (toString_utf8_ascii chunk (List.concat chunks) Hc).
  fold (whole (map toString_utf8 chunks)). rewrite (IH H). f_equal.
  rewrite <- (app_nil_r chunk) at 1.
  rewrite (toString_utf8_ascii chunk [] Hc). apply append_nil_r.
Qed.

(** ** Builtin tools through the request pipeline *)

Lemma obj_get_plain (props : obj) (k : string) :
  Forall (fun kv => plain_json (snd kv)) props ->
  obj_get props k = VUndefined \/ plain_json (obj_get props k).
Proof.
  induction 1 as [|[k' v] props Hv _ IH]; simpl; [now left|].
  destruct (k' =? k); [now right | exact IH].
Qed.

Lemma obj_get_clean_props (props : obj) (k : string) :
  NoDup (map fst props) ->
  obj_get (clean_props props) k =
  if is_str (obj_get props k) UNDEFINED_MARK then VUndefined
  else cleanUndefined (obj_get props k).
Proof.
  unfold clean_props. induction props as [|[k' v] props IH]; intros Hnd;
    [reflexivity|].
  inversion Hnd as [|? ? Hk Hnd']; subst.
  cbn [filter map fst snd obj_get].
  change (keep_item v) with (negb (is_str v UNDEFINED_MARK)).
  destruct (String.eqb_spec k' k) as [->|Hne].
  - destruct (is_str v UNDEFINED_MARK) eqn:Hm; cbn [negb map obj_get fst snd].
    + apply obj_get_absent. intros Hin. apply Hk.
      now apply (clean_props_keys props k).
    + now rewrite String.eqb_refl.
  - destruct (is_str v UNDEFINED_MARK); cbn [negb map obj_get fst snd].
    + now apply IH.
    + destruct (String.eqb_spec k' k); [contradiction | now apply IH].
Qed.

(** Sanitising a tree that holds no marker gives the tree back. *)
Lemma cleanUndefined_mark_free (v : value) :
  plain_json v -> contains_mark v = false -> cleanUndefined v = v.
Proof.
  induction v as [| | | |s|items IH|props IH|m] using value_ind;
    intros Hj Hc; try reflexivity.
  - inversion Hj as [| | | |? Hitems|]; subst.
    rewrite cleanUndefined_array. f_equal. cbn [contains_mark] in Hc.
    clear Hj. induction items as [|x items IHitems]; [reflexivity|].
    inversion IH as [|? ? Hx IH']; inversion Hitems as [|? ? Hjx Hj']; subst.
    cbn [existsb] in Hc. apply orb_false_elim in Hc. destruct Hc as [Hcx Hc].
    cbn [filter]. change (keep_item x) with (negb (is_str x UNDEFINED_MARK)).
    replace (is_str x UNDEFINED_MARK) with false.
    + cbn [negb map]. rewrite (Hx Hjx Hcx). f_equal.
      now apply IHitems.
    + symmetry. apply is_str_false. intros ->. discriminate.
  - inversion Hj as [| | | | |? Hnd Hproto Hprops]; subst.
    rewrite cleanUndefined_object_distinct by exact Hnd. f_equal.
    cbn [contains_mark] in Hc. clear Hnd Hproto Hj. unfold clean_props.
    induction props as [|[k x] props IHprops]; [reflexivity|].
    inversion IH as [|? ? Hx IH']; inversion Hprops as [|? ? Hjx Hj']; subst.
    cbn [existsb fst snd] in *. apply orb_false_elim in Hc.
    destruct Hc as [Hcx Hc].
    cbn [filter snd]. change (keep_item x) with (negb (is_str x UNDEFINED_MARK)).
    replace (is_str x UNDEFINED_MARK) with false.
    + cbn [negb map fst snd]. rewrite (Hx Hjx Hcx). f_equal.
      now apply IHprops.
    + symmetry. apply is_str_false. intros ->. discriminate.
Qed.

Lemma injectSystemPrompt_frame (body body' : obj) (k : string) :
  injectSystemPrompt body = Some body' ->
  k <> "system" -> k <> "messages" -> obj_get body' k = obj_get body k.
Proof.
  intros H Hs Hm. unfold injectSystemPrompt in H.
  destruct (clientSystem_of body) as [cs|]; [cbn [bind] in H | discriminate].
  assert (H1 : obj_get (obj_set body "system" CLAUDE_CODE_SYSTEM) k
               = obj_get body k) by (apply obj_get_set_other; congruence).
  assert (H2 : forall x,
             obj_get (obj_set (obj_set body "system" CLAUDE_CODE_SYSTEM)
                              "messages" x) k = obj_get body k).
  { intros x. rewrite obj_get_set_other by congruence. exact H1. }
  destruct cs; try (injection H as <-; exact H1).
  destruct (obj_get _ "messages"); try (injection H as <-; exact H1).
  destruct (truthy (VStr s)); [|injection H as <-; exact H1].
  destruct (findIndex_user items) as [[i|]|]; cbn [bind] in H;
    [injection H as <-; apply H2 | injection H as <-; exact H1 | discriminate].
Qed.

Lemma injectThinking_frame (body body' : obj) (k : string) :
  injectThinking body = Some body' ->
  k <> "thinking" -> k <> "max_tokens" -> obj_get body' k = obj_get body k.
Proof.
  intros H Ht Hm. unfold injectThinking in H.
  destruct (negb (is_undefined _)); [now injection H as <-|].
  destruct (negb (truthy _)); [now injection H as <-|].
  destruct (isClaude46Model _) as [[]|]; cbn [bind] in H; try discriminate.
  - injection H as <-. apply obj_get_set_other. congruence.
  - destruct (isClaudeThinkingModel _) as [[]|]; cbn [bind] in H;
      try discriminate; [|now injection H as <-].
    match type of H with
    | bind ?low _ = _ => destruct low as [[]|]
    end; cbn [bind] in H; try discriminate; injection H as <-.
    + rewrite obj_get_set_other by congruence.
      apply obj_get_set_other. congruence.
    + apply obj_get_set_other. congruence.
Qed.


Lemma mapM_Forall2 {A B : Type} (f : A -> option B) (l : list A) (l' : list B) :
  mapM f l = Some l' -> Forall2 (fun x y => f x = Some y) l l'.
Proof.
  revert l'. induction l as [|x l IH]; intros l' H; cbn [mapM] in H.
  - injection H as <-. constructor.
  - destruct (f x) as [y|] eqn:Hy; [cbn [bind] in H | discriminate].
    destruct (mapM f l) as [ys|]; [cbn [bind] in H | discriminate].
    injection H as <-. constructor; [exact Hy | now apply IH].
Qed.

Lemma transformTool_builtin (tool tool' : value) :
  isBuiltinTool tool = Some true -> transformTool tool = Some tool' ->
  tool' = tool.
Proof. unfold transformTool. intros ->. cbn [bind]. congruence. Qed.

Lemma transformRequestBody_tools (b : obj) (tools : list value) (out : value) :
  obj_get b "tools" = VArr tools ->
  transformRequestBody (VObj b) = Some out ->
  exists b' tools',
    out = VObj b' /\ obj_get b' "tools" = VArr tools'
    /\ mapM transformTool tools = Some tools'.
Proof.
  intros Htools H. cbn [transformRequestBody] in H. rewrite Htools in H.
  destruct (mapM transformTool tools) as [tools'|]; [|discriminate].
  cbn [bind] in H. injection H as <-.
  eexists _, tools'. split; [reflexivity|]. split; [|reflexivity].
  destruct (obj_get (obj_set b "tools" (VArr tools')) "messages");
    try apply obj_get_set_same.
  rewrite obj_get_set_other by discriminate. apply obj_get_set_same.
Qed.

Lemma builtin_type_facts (ty : string) :
  existsb (fun p => prefix p ty) BUILTIN_TOOL_TYPES = true ->
  ty <> "" /\ ty <> UNDEFINED_MARK.
Proof. intros H. split; intros ->; discriminate H. Qed.

(** A builtin descriptor is still one after the sanitiser, and the tool
    loop leaves it alone. *)
Lemma builtin_tool_kept (tool tool' : value) :
  plain_json tool -> builtin_descriptor tool ->
  contains_mark (get_opt tool "name") = false ->
  transformTool (cleanUndefined tool) = Some tool' ->
  get_opt tool' "name" = get_opt tool "name".
Proof.
  intros Hj (ty & Hty & Hpre) Hname Hrun.
  destruct tool as [| | | | | |t|]; try discriminate Hty.
  cbn [get_opt] in *.
  inversion Hj as [| | | | |? Hnd _ Hprops]; subst.
  rewrite cleanUndefined_object_distinct in Hrun by exact Hnd.
  destruct (builtin_type_facts ty Hpre) as [Hne Hmark].
  assert (Hb : isBuiltinTool (VObj (clean_props t)) = Some true).
  { unfold isBuiltinTool. cbn [get_prop].
    rewrite (obj_get_clean_props t "type" Hnd), Hty. cbn [is_str].
    destruct (String.eqb_spec ty UNDEFINED_MARK); [contradiction|].
    cbn [cleanUndefined]. rewrite Hpre.
    now destruct (String.eqb_spec ty ""). }
  rewrite (transformTool_builtin _ _ Hb Hrun). cbn [get_opt].
  rewrite (obj_get_clean_props t "name" Hnd).
  replace (is_str (obj_get t "name") UNDEFINED_MARK) with false.
  - destruct (obj_get_plain t "name" Hprops) as [->|Hp]; [reflexivity|].
    now apply cleanUndefined_mark_free.
  - symmetry. apply is_str_false. intros Heq. rewrite Heq in Hname.
    discriminate.
Qed.

(** C4, amended: through the whole request pipeline, the tools that the
    sanitiser keeps stay in order, and each builtin descriptor among them
    has the [name] it came with, unless that name holds the marker. *)
Theorem builtin_tool_names_kept (body : obj) (tools : list value) (out : value) :
  plain_json (VObj body) ->
  obj_get body "tools" = VArr tools ->
  transformRequest (VObj body) = Some out ->
  exists tools',
    get_opt out "tools" = VArr tools'
    /\ Forall2
         (fun tool tool' =>
            builtin_descriptor tool ->
            contains_mark (get_opt tool "name") = false ->
            get_opt tool' "name" = get_opt tool "name")
         (filter keep_item tools) tools'.
Proof.
  intros Hj Htools Hrun.
  inversion Hj as [| | | | |? Hnd _ Hprops]; subst.
  unfold transformRequest in Hrun.
  rewrite cleanUndefined_object_distinct in Hrun by exact Hnd.
  assert (Hct : obj_get (clean_props body) "tools"
                = VArr (map cleanUndefined (filter keep_item tools))).
  { rewrite (obj_get_clean_props body "tools" Hnd), Htools.
    cbn [is_str]. apply cleanUndefined_array. }
  destruct (transformRequestBody (VObj (clean_props body))) as [tr|] eqn:Htr;
    [cbn [bind] in Hrun | discriminate].
  destruct (transformRequestBody_tools _ _ _ Hct Htr)
    as (b' & tools' & -> & Hb' & Hmap).
  destruct (injectSystemPrompt b') as [b1|] eqn:H1;
    [cbn [bind] in Hrun | discriminate].
  destruct (injectThinking b1) as [b2|] eqn:H2;
    [cbn [bind] in Hrun | discriminate].
  injection Hrun as <-. exists tools'. split.
  - cbn [get_opt].
    rewrite (injectThinking_frame _ _ "tools" H2) by discriminate.
    now rewrite (injectSystemPrompt_frame _ _ "tools" H1) by discriminate.
  - assert (Hplain : Forall plain_json (filter keep_item tools)).
    { destruct (obj_get_plain body "tools" Hprops) as [Hu|Hp];
        [congruence|].
      rewrite Htools in Hp. inversion Hp as [| | | |? Hall|]; subst.
      apply Forall_forall. intros x Hx. apply filter_In in Hx.
      rewrite Forall_forall in Hall. now apply Hall. }
    apply mapM_Forall2 in Hmap. clear -Hmap Hplain.
    remember (filter keep_item tools) as kept eqn:Hk. clear Hk.
    revert tools' Hmap.
    induction Hplain as [|tool kept Hp _ IH]; intros tools' Hmap;
      inversion Hmap as [|? tool' ? rest Hrun Hrest]; subst; constructor.
    + intros Hb Hname. now apply builtin_tool_kept.
    + now apply IH.
Qed.

End Properties.

(** * Further properties *)

Section Further.

Context {P : Platform}.


(** ** The sanitiser *)

Lemma filter_keys_NoDup (f : string * value -> bool) (props : obj) :
  NoDup (map fst props) -> NoDup (map fst (filter f props)).
Proof.
  induction props as [|kv props IH]; intros Hnd; [constructor|].
  inversion Hnd as [|? ? Hk Hnd']; subst. cbn [filter].
  destruct (f kv); [|now apply IH].
  cbn [map]. constructor; [|now apply IH].
  intros Hin. apply Hk. clear -Hin.
  induction props as [|kv' props IH]; [contradiction|].
  cbn [filter] in Hin. destruct (f kv'); cbn [map In] in *; tauto.
Qed.

Lemma clean_props_keys_eq (props : obj) :
  map fst (clean_props props)
  = map fst (filter (fun kv => keep_item (snd kv)) props).
Proof. unfold clean_props. rewrite map_map. reflexivity. Qed.

(** The sanitiser returns a tree of the same kind: distinct keys stay
    distinct. *)
Lemma cleanUndefined_plain (v : value) :
  plain_json v -> plain_json (cleanUndefined v).
Proof.
  induction v as [| | | |s|items IH|props IH|m] using value_ind; intros Hj;
    try exact Hj.
  - inversion Hj as [| | | |? Hitems|]; subst.
    rewrite cleanUndefined_array. constructor.
    induction items as [|x items IHitems]; [constructor|].
    inversion IH as [|? ? Hx IH']; inversion Hitems as [|? ? Hjx Hj']; subst.
    cbn [filter]. destruct (keep_item x); cbn [map].
    + constructor; [now apply Hx | apply IHitems; auto; now constructor].
    + apply IHitems; auto. now constructor.
  - inversion Hj as [| | | | |? Hnd Hproto Hprops]; subst.
    rewrite cleanUndefined_object_distinct by exact Hnd. constructor.
    + rewrite clean_props_keys_eq. now apply filter_keys_NoDup.
    + intros Hin. apply Hproto. now apply (clean_props_keys props).
    + clear Hnd Hproto Hj. unfold clean_props.
      induction props as [|[k x] props IHprops]; [constructor|].
      inversion IH as [|? ? Hx IH']; inversion Hprops as [|? ? Hjx Hj']; subst.
      cbn [filter snd]. destruct (keep_item x); cbn [map fst snd].
      * constructor; [now apply Hx | now apply IHprops].
      * now apply IHprops.
Qed.

(** X2: Sanitising twice is sanitising once. *)
Theorem cleanUndefined_idempotent (v : value) :
  plain_json v -> cleanUndefined (cleanUndefined v) = cleanUndefined v.
Proof.
  intros Hj.
  destruct (is_str v UNDEFINED_MARK) eqn:Hm.
  - apply is_str_true in Hm. now subst v.
  - apply is_str_false in Hm.
    apply cleanUndefined_mark_free; [now apply cleanUndefined_plain|].
    now apply cleanUndefined_sound.
Qed.

(** X3: A tree without the marker comes back as it is. *)
Theorem cleanUndefined_keeps_clean_tree (v : value) :
  plain_json v -> contains_mark v = false -> cleanUndefined v = v.
Proof. apply cleanUndefined_mark_free. Qed.


(** ** Builtin tools *)

Lemma prefix_self_append (p s : string) : prefix p (p ++ s) = true.
Proof.
  induction p as [|c p IH]; simpl; [now destruct s|].
  destruct (ascii_dec c c); [exact IH | contradiction].
Qed.

Lemma prefix_split (p s : string) :
  prefix p s = true -> exists rest, s = p ++ rest.
Proof.
  revert s. induction p as [|c p IH]; intros s H; [now exists s|].
  destruct s as [|d s]; [discriminate|]. simpl in H.
  destruct (ascii_dec c d) as [->|]; [|discriminate].
  destruct (IH s H) as (rest & ->). now exists rest.
Qed.

(** X4: A descriptor is builtin exactly when its [type] is a string made of one
    of the builtin prefixes followed by anything (a version suffix or any
    other text). *)
Theorem isBuiltinTool_prefix (o : obj) :
  isBuiltinTool (VObj o) = Some true
  <-> exists p rest, In p BUILTIN_TOOL_TYPES
                     /\ obj_get o "type" = VStr (p ++ rest).
Proof.
  unfold isBuiltinTool. cbn [get_prop]. split.
  - destruct (obj_get o "type") as [| | | |ty| | |]; try discriminate.
    intros H0.
    assert (H : negb (ty =? "")
                && existsb (fun p => prefix p ty) BUILTIN_TOOL_TYPES = true)
      by congruence.
    apply andb_prop in H. destruct H as [_ H].
    apply existsb_exists in H. destruct H as (p & Hin & Hp).
    destruct (prefix_split p ty Hp) as (rest & ->). now exists p, rest.
  - intros (p & rest & Hin & ->). f_equal. apply andb_true_intro. split.
    + destruct p as [|c p]; [|reflexivity]. exfalso.
      unfold BUILTIN_TOOL_TYPES in Hin. cbn [In] in Hin.
      repeat (destruct Hin as [Hin|Hin]; [discriminate|]). exact Hin.
    + apply existsb_exists. exists p. split; [exact Hin|].
      apply prefix_self_append.
Qed.

(** ** The name map *)

Lemma ascii_lower_upper (c : ascii) :
  ascii_lower (ascii_upper c) = ascii_lower c.
Proof. destruct c as [[] [] [] [] [] [] [] []]; reflexivity. Qed.

(** X5: On a name that starts with an ASCII character and is not an inherited
    member, the result is a string of the same length that differs from the
    name in letter case only. *)
Theorem mapName_changes_case_only (s : string) :
  ascii_first s = true -> mem_string s OBJECT_PROTOTYPE = false ->
  exists r, mapName (VStr s) = VStr r
            /\ toLowerCase r = toLowerCase s
            /\ length r = length s.
Proof.
  intros Hasc Hmem. destruct s as [|c rest]; [now exists ""|].
  assert (Hne : String c rest <> "") by discriminate.
  rewrite (mapName_own_or_capitalized _ Hne Hmem).
  destruct (NAME_MAP_lookup (String c rest))
    as [(_ & Hown & _)|[(Hown & H)|(_ & H & _)]]; [| |congruence].
  - rewrite Hown. unfold capitalize. cbn [ascii_first] in Hasc. rewrite Hasc.
    eexists. split; [reflexivity|]. split; [|reflexivity].
    cbn [toLowerCase]. now rewrite ascii_lower_upper.
  - rewrite Hown.
    destruct H as [(-> & _)|[(-> & _)|(-> & _)]];
      eexists; (split; [reflexivity | split; reflexivity]).
Qed.


(** ** The request transform *)

Lemma obj_set_set (o : obj) (k : string) (x y : value) :
  obj_set (obj_set o k x) k y = obj_set o k y.
Proof.
  induction o as [|[k' v'] o IH]; simpl.
  - now rewrite String.eqb_refl.
  - destruct (String.eqb_spec k' k) as [->|Hne]; simpl.
    + now rewrite String.eqb_refl.
    + destruct (String.eqb_spec k' k); [contradiction | now rewrite IH].
Qed.

Lemma obj_get_present (o : obj) (k : string) :
  obj_get o k <> VUndefined -> In k (map fst o).
Proof.
  intros H. destruct (in_dec string_dec k (map fst o)) as [Hin|Hnot];
    [exact Hin|]. now rewrite obj_get_absent in H.
Qed.

Lemma obj_set_same (o : obj) (k : string) :
  In k (map fst o) -> obj_set o k (obj_get o k) = o.
Proof.
  induction o as [|[k' v'] o IH]; simpl; intros Hin; [contradiction|].
  destruct (String.eqb_spec k' k) as [->|Hne]; [reflexivity|].
  f_equal. apply IH. destruct Hin; [contradiction | assumption].
Qed.

Lemma mapM_None {A B : Type} (f : A -> option B) (l : list A) :
  mapM f l = None <-> Exists (fun x => f x = None) l.
Proof.
  induction l as [|x l IH]; cbn [mapM].
  - split; [discriminate | inversion 1].
  - destruct (f x) as [y|] eqn:Hy; cbn [bind].
    + destruct (mapM f l) as [ys|]; cbn [bind].
      * split; [discriminate|]. intros H.
        inversion H as [? ? Hx|? ? Hl]; subst; [congruence|].
        apply IH in Hl. discriminate.
      * split; [|reflexivity]. intros _. apply Exists_cons_tl. now apply IH.
    + split; [|reflexivity]. intros _. now apply Exists_cons_hd.
Qed.

Lemma transformTool_None (tool : value) :
  transformTool tool = None <-> is_nullish tool.
Proof.
  unfold transformTool, isBuiltinTool, is_nullish.
  destruct tool as [| | | | | |t|]; cbn [get_prop bind];
    try (split; [discriminate | intros [H|H]; discriminate]);
    try (split; [reflexivity | auto]; auto).
  - split; [intros _; now right | reflexivity].
  - split; [intros _; now left | reflexivity].
  - split; [|intros [H|H]; discriminate].
    destruct (obj_get t "type") as [| | | |ty| | |]; cbn [bind];
      try (destruct (truthy (obj_get t "name")); discriminate).
    destruct (negb (ty =? "") && _); [discriminate|].
    destruct (truthy (obj_get t "name")); discriminate.
Qed.

(** X6: The request transform raises exactly when the body is an object whose
    [tools] array holds a null (or undefined) element. *)
Theorem transformRequestBody_raises (body : value) :
  transformRequestBody body = None
  <-> exists b tools, body = VObj b /\ obj_get b "tools" = VArr tools
                      /\ Exists is_nullish tools.
Proof.
  split.
  - destruct body as [| | | | | |b|]; try discriminate.
    cbn [transformRequestBody].
    destruct (obj_get b "tools") as [| | | | |tools| |] eqn:Ht;
      try discriminate.
    destruct (mapM transformTool tools) as [tools'|] eqn:Hm;
      [discriminate|]. intros _.
    exists b, tools. repeat split; [exact Ht|].
    apply mapM_None in Hm. apply Exists_exists in Hm.
    destruct Hm as (x & Hin & Hx). apply Exists_exists. exists x.
    split; [exact Hin | now apply transformTool_None].
  - intros (b & tools & -> & Ht & Hex). cbn [transformRequestBody].
    rewrite Ht.
    assert (Hm : mapM transformTool tools = None).
    { apply mapM_None. apply Exists_exists in Hex.
      destruct Hex as (x & Hin & Hx). apply Exists_exists. exists x.
      split; [exact Hin | now apply transformTool_None]. }
    now rewrite Hm.
Qed.


Lemma same_but_get (key : string) (v v' : value) (k : string) :
  same_but key v v' -> k <> key -> get_opt v' k = get_opt v k.
Proof.
  intros [->|(o & x & -> & _ & ->)] Hk; [reflexivity|].
  cbn [get_opt]. apply obj_get_set_other. congruence.
Qed.

Lemma truthy_present (o : obj) (k : string) :
  truthy (obj_get o k) = true -> In k (map fst o).
Proof. intros H. apply obj_get_present. intros Heq. now rewrite Heq in H. Qed.

Lemma mapName_falsy (x : value) : truthy x = false -> mapName x = x.
Proof.
  destruct x; try reflexivity. intros H. unfold mapName. now rewrite H.
Qed.

Lemma transformTool_renamed (tool tool' : value) :
  transformTool tool = Some tool' -> tool_renamed tool tool'.
Proof.
  unfold transformTool, tool_renamed.
  destruct (isBuiltinTool tool) as [[]|] eqn:Hb; cbn [bind]; [| |discriminate].
  - intros [= <-]. split; [now left|]. split; [reflexivity | discriminate].
  - destruct tool as [| | | | | |t|]; try discriminate Hb;
      try (intros [= <-]; split; [now left|];
           split; [discriminate | reflexivity]).
    destruct (truthy (obj_get t "name")) eqn:Hn; intros [= <-].
    + rewrite (mapName_truthy _ Hn). split; [|split; [discriminate|]].
      * right. exists t, (mapName (obj_get t "name")).
        repeat split. now apply truthy_present.
      * intros _. cbn [get_opt]. apply obj_get_set_same.
    + split; [now left|]. split; [discriminate|].
      intros _. cbn [get_opt]. now rewrite (mapName_falsy _ Hn).
Qed.

Lemma transformBlock_renamed (block : value) :
  block_renamed block (transformBlock block).
Proof.
  unfold block_renamed, transformBlock.
  destruct block as [| | | | | |b|];
    try (split; [now left|]; split; [reflexivity | discriminate]).
  cbn [get_opt].
  destruct (is_str (obj_get b "type") "tool_use") eqn:Hty; cbn [andb].
  - apply is_str_true in Hty.
    destruct (truthy (obj_get b "name")) eqn:Hn.
    + rewrite (mapName_truthy _ Hn). split; [|split].
      * right. exists b, (mapName (obj_get b "name")).
        repeat split. now apply truthy_present.
      * intros H. contradiction.
      * intros _. apply obj_get_set_same.
    + split; [now left|]. split; [reflexivity|].
      intros _. now rewrite (mapName_falsy _ Hn).
  - apply is_str_false in Hty.
    split; [now left|]. split; [reflexivity|]. intros H. contradiction.
Qed.

Lemma transformMessage_renamed (message : value) :
  message_renamed message (transformMessage message).
Proof.
  unfold message_renamed, transformMessage.
  destruct message as [| | | | | |m|];
    try (split; [now left|]; split; [reflexivity | discriminate]).
  cbn [get_opt].
  destruct (obj_get m "content") as [| | | | |blocks| |] eqn:Hc;
    try (split; [now left|]; split; [reflexivity | discriminate]).
  split; [|split].
  - right. exists m, (VArr (map transformBlock blocks)). repeat split.
    apply obj_get_present. rewrite Hc. discriminate.
  - intros H. now destruct (H blocks).
  - intros blocks0 [= <-]. exists (map transformBlock blocks).
    split; [apply obj_get_set_same|].
    clear. induction blocks; cbn [map]; constructor;
      [apply transformBlock_renamed | assumption].
Qed.

Lemma transformRequestBody_messages (b : obj) (out : value) :
  transformRequestBody (VObj b) = Some out ->
  exists b1,
    (b1 = b
     \/ exists tools tools',
          obj_get b "tools" = VArr tools
          /\ b1 = obj_set b "tools" (VArr tools'))
    /\ out = VObj match obj_get b "messages" with
                  | VArr messages =>
                      obj_set b1 "messages" (VArr (map transformMessage messages))
                  | _ => b1
                  end.
Proof.
  cbn [transformRequestBody].
  destruct (obj_get b "tools") as [| | | | |tools| |] eqn:Ht; cbn [bind];
    try (intros [= <-]; exists b; split; [now left | reflexivity]).
  destruct (mapM transformTool tools) as [tools'|]; [|discriminate].
  cbn [bind]. intros [= <-]. exists (obj_set b "tools" (VArr tools')).
  split; [right; now exists tools, tools'|].
  now rewrite (obj_get_set_other b "tools" "messages") by discriminate.
Qed.

(** X7: The tools of a transformed request are the tools it came with, in
    order: a builtin tool is untouched, any other tool has its [name]
    replaced by its normal form and nothing else changed. *)
Theorem transformRequestBody_renames_tools (b : obj) (tools : list value)
  (out : value) :
  obj_get b "tools" = VArr tools ->
  transformRequestBody (VObj b) = Some out ->
  exists tools',
    get_opt out "tools" = VArr tools' /\ Forall2 tool_renamed tools tools'.
Proof.
  intros Ht Hrun.
  destruct (transformRequestBody_tools b tools out Ht Hrun)
    as (b' & tools' & -> & Hb' & Hmap).
  exists tools'. split; [exact Hb'|].
  apply mapM_Forall2 in Hmap. clear -Hmap.
  induction Hmap as [|t t' ts ts' Hrun1 _ IH]; [constructor|].
  constructor; [now apply transformTool_renamed | exact IH].
Qed.

(** X8: The messages of a transformed request are the messages it came with,
    in order: a message whose content is not an array is untouched; in an
    array content every block stays in place, a [tool_use] block has its
    [name] replaced by its normal form and nothing else changed, any other
    block is untouched. *)
Theorem transformRequestBody_renames_blocks (b : obj) (messages : list value)
  (out : value) :
  obj_get b "messages" = VArr messages ->
  transformRequestBody (VObj b) = Some out ->
  exists messages',
    get_opt out "messages" = VArr messages'
    /\ Forall2 message_renamed messages messages'.
Proof.
  intros Hm Hrun.
  destruct (transformRequestBody_messages b out Hrun) as (b1 & _ & ->).
  rewrite Hm. exists (map transformMessage messages).
  split; [apply obj_get_set_same|].
  clear. induction messages; cbn [map]; constructor;
    [apply transformMessage_renamed | assumption].
Qed.

(** X9: The request transform returns an object with the keys it came with, in
    the same order, and with the same value under every key but [tools]
    and [messages]. *)
Theorem transformRequestBody_frame (b : obj) (out : value) :
  transformRequestBody (VObj b) = Some out ->
  exists b', out = VObj b'
             /\ map fst b' = map fst b
             /\ forall k, k <> "tools" -> k <> "messages" ->
                          obj_get b' k = obj_get b k.
Proof.
  intros Hrun.
  destruct (transformRequestBody_messages b out Hrun) as (b1 & Hb1 & ->).
  eexists. split; [reflexivity|].
  assert (H1 : map fst b1 = map fst b
               /\ forall k, k <> "tools" -> obj_get b1 k = obj_get b k).
  { destruct Hb1 as [->|(tools & tools' & Ht & ->)]; [now split|].
    split.
    - apply obj_set_keys_present. apply obj_get_present.
      rewrite Ht. discriminate.
    - intros k Hk. apply obj_get_set_other. congruence. }
  destruct H1 as [Hkeys Hget].
  destruct (obj_get b "messages") as [| | | | |messages| |] eqn:Hm;
    try (split; [exact Hkeys | intros k Hk _; now apply Hget]).
  split.
  - rewrite obj_set_keys_present; [exact Hkeys|].
    rewrite Hkeys. apply obj_get_present. rewrite Hm. discriminate.
  - intros k Hk1 Hk2. rewrite obj_get_set_other by congruence.
    now apply Hget.
Qed.


Lemma obj_set_noop (o : obj) (k : string) (v : value) :
  obj_get o k = v -> v <> VUndefined -> obj_set o k v = o.
Proof.
  intros <- Hv. apply obj_set_same. now apply obj_get_present.
Qed.

Lemma isBuiltinTool_set_name (t : obj) (x : value) :
  isBuiltinTool (VObj (obj_set t "name" x)) = isBuiltinTool (VObj t).
Proof.
  unfold isBuiltinTool. cbn [get_prop].
  now rewrite (obj_get_set_other t "name" "type") by discriminate.
Qed.

Lemma transformTool_idempotent (tool tool' : value) :
  case_mapping_settles ->
  transformTool tool = Some tool' -> transformTool tool' = Some tool'.
Proof.
  intros Hset. unfold transformTool.
  destruct (isBuiltinTool tool) as [[]|] eqn:Hb; cbn [bind]; [| |discriminate].
  - intros [= <-]. now rewrite Hb.
  - destruct tool as [| | | | | |t|]; try discriminate Hb;
      try (intros [= <-]; now rewrite Hb).
    destruct (truthy (obj_get t "name")) eqn:Hn; intros [= <-].
    + rewrite isBuiltinTool_set_name, Hb. cbn [bind].
      rewrite obj_get_set_same, (mapName_truthy _ Hn).
      destruct (truthy (mapName (obj_get t "name"))) eqn:Hn'; [|reflexivity].
      rewrite (mapName_truthy _ Hn'), (mapName_idempotent Hset).
      now rewrite obj_set_set.
    + rewrite Hb. cbn [bind]. now rewrite Hn.
Qed.

Lemma transformBlock_idempotent (block : value) :
  case_mapping_settles ->
  transformBlock (transformBlock block) = transformBlock block.
Proof.
  intros Hset. destruct block as [| | | | | |b|]; try reflexivity.
  cbn [transformBlock].
  destruct (is_str (obj_get b "type") "tool_use" && truthy (obj_get b "name"))
    eqn:Hc; [|cbn [transformBlock]; now rewrite Hc].
  apply andb_prop in Hc. destruct Hc as [Hty Hn].
  cbn [transformBlock].
  rewrite (obj_get_set_other b "name" "type") by discriminate.
  rewrite Hty, obj_get_set_same, (mapName_truthy _ Hn). cbn [andb].
  destruct (truthy (mapName (obj_get b "name"))) eqn:Hn'; [|reflexivity].
  rewrite (mapName_truthy _ Hn'), (mapName_idempotent Hset).
  now rewrite obj_set_set.
Qed.

Lemma transformMessage_idempotent (message : value) :
  case_mapping_settles ->
  transformMessage (transformMessage message) = transformMessage message.
Proof.
  intros Hset. destruct message as [| | | | | |m|]; try reflexivity.
  cbn [transformMessage].
  destruct (obj_get m "content") as [| | | | |blocks| |] eqn:Hc;
    try (cbn [transformMessage]; now rewrite Hc).
  cbn [transformMessage]. rewrite obj_get_set_same, obj_set_set.
  do 3 f_equal. rewrite map_map. apply map_ext. intros block.
  now apply transformBlock_idempotent.
Qed.

Lemma mapM_idempotent {A : Type} (f : A -> option A) (l l' : list A) :
  (forall x y, f x = Some y -> f y = Some y) ->
  mapM f l = Some l' -> mapM f l' = Some l'.
Proof.
  intros Hf H. apply mapM_Forall2 in H.
  induction H as [|x y l l' Hxy _ IH]; [reflexivity|].
  cbn [mapM]. rewrite (Hf x y Hxy). cbn [bind]. now rewrite IH.
Qed.

(** X10: Transforming a transformed request changes nothing (with a case
    mapping that settles). *)
Theorem transformRequestBody_idempotent (body body' : value) :
  case_mapping_settles ->
  transformRequestBody body = Some body' ->
  transformRequestBody body' = Some body'.
Proof.
  intros Hset.
  destruct body as [| | | | | |b|]; try (intros [= <-]; reflexivity).
  cbn [transformRequestBody].
  (* the object after the tool loop, and what the loop left under [tools] *)
  assert (Hmsgs : forall b1 b2 : obj,
             b2 = match obj_get b1 "messages" with
                  | VArr messages =>
                      obj_set b1 "messages"
                        (VArr (map transformMessage messages))
                  | _ => b1
                  end ->
             (forall tools, obj_get b1 "tools" = VArr tools ->
                            mapM transformTool tools = Some tools) ->
             transformRequestBody (VObj b2) = Some (VObj b2)).
  { intros b1 b2 Hb2 Htools.
    assert (Ht2 : obj_get b2 "tools" = obj_get b1 "tools").
    { rewrite Hb2. destruct (obj_get b1 "messages"); try reflexivity.
      apply obj_get_set_other. discriminate. }
    assert (Hm2 : obj_get b2 "messages"
                  = match obj_get b1 "messages" with
                    | VArr messages => VArr (map transformMessage messages)
                    | other => other
                    end).
    { rewrite Hb2. destruct (obj_get b1 "messages") eqn:Hm; try exact Hm.
      apply obj_get_set_same. }
    cbn [transformRequestBody]. rewrite Ht2.
    assert (Hlast : match obj_get b2 "messages" with
                    | VArr messages =>
                        obj_set b2 "messages"
                          (VArr (map transformMessage messages))
                    | _ => b2
                    end = b2).
    { rewrite Hm2.
      destruct (obj_get b1 "messages") as [| | | | |messages| |] eqn:Hm;
        try reflexivity.
      rewrite map_map.
      rewrite (map_ext _ _ (fun m => transformMessage_idempotent m Hset)).
      apply obj_set_noop; [|discriminate].
      rewrite Hm2. reflexivity. }
    destruct (obj_get b1 "tools") as [| | | | |tools| |] eqn:Ht;
      cbn [bind]; try (do 2 f_equal; exact Hlast).
    rewrite (Htools tools eq_refl). cbn [bind].
    rewrite (obj_set_noop b2 "tools" (VArr tools)) by (congruence || discriminate).
    do 2 f_equal. exact Hlast. }
  destruct (obj_get b "tools") as [| | | | |tools| |] eqn:Ht; cbn [bind];
    try (intros [= <-]; apply (Hmsgs b _ eq_refl); intros tools Heq;
         congruence).
  destruct (mapM transformTool tools) as [tools'|] eqn:Hmap; [|discriminate].
  cbn [bind]. intros [= <-]. apply (Hmsgs _ _ eq_refl).
  intros tools0. rewrite obj_get_set_same. intros [= <-].
  apply (mapM_idempotent transformTool tools tools'); [|exact Hmap].
  intros x y. now apply transformTool_idempotent.
Qed.


(** ** The response repair *)

Lemma repairBlock_other (block : value) :
  get_opt block "type" <> VStr "tool_use" -> repairBlock block = block.
Proof.
  destruct block as [| | | | | |b|]; try reflexivity. cbn [get_opt repairBlock].
  intros H. apply is_str_false in H. now rewrite H.
Qed.

(** X11: A response without a [tool_use] block comes back as it is. *)
Theorem transformResponseBody_without_tool_use (body : value) :
  (forall blocks block,
      get_opt body "content" = VArr blocks -> In block blocks ->
      get_opt block "type" <> VStr "tool_use") ->
  transformResponseBody body = body.
Proof.
  intros H. destruct body as [| | | | | |b|]; try reflexivity.
  cbn [transformResponseBody get_opt] in *.
  destruct (obj_get b "content") as [| | | | |blocks| |] eqn:Hc;
    try reflexivity.
  f_equal. specialize (H blocks).
  replace (map repairBlock blocks) with blocks.
  - apply obj_set_noop; [exact Hc | discriminate].
  - clear Hc. induction blocks as [|block blocks IH]; [reflexivity|].
    cbn [map]. rewrite repairBlock_other by (apply H; [reflexivity | now left]).
    f_equal. apply IH. intros block' _ Hin. apply H; [reflexivity | now right].
Qed.

(** ** The thinking parameter *)

Lemma prefix_append_l (p q s : string) :
  prefix (p ++ q) s = true -> prefix p s = true.
Proof.
  revert s. induction p as [|c p IH]; intros s H; [now destruct s|].
  destruct s as [|d s]; [discriminate|]. simpl in *.
  destruct (ascii_dec c d); [now apply IH | discriminate].
Qed.

Lemma includes_append_l (p q s : string) :
  includes (p ++ q) s = true -> includes p s = true.
Proof.
  induction s as [|c s IH]; cbn [includes]; intros H.
  - rewrite orb_false_r in *. now apply (prefix_append_l p q).
  - apply orb_true_iff in H. apply orb_true_iff.
    destruct H as [H|H]; [left; now apply (prefix_append_l p q) | right; auto].
Qed.

(** The third adaptive pattern adds nothing to the first. *)
Lemma isClaude46Model_two (m : string) :
  isClaude46Model (VStr m)
  = Some (mentions "claude-opus-4" m || mentions "claude-4-opus" m).
Proof.
  unfold isClaude46Model, matches_patterns, CLAUDE_46_PATTERNS, mentions.
  cbn [existsb]. f_equal.
  destruct (includes "claude-opus-4" (toLowerCase m)) eqn:H1; [reflexivity|].
  destruct (includes "claude-4-opus" (toLowerCase m)) eqn:H2; [reflexivity|].
  cbn [orb]. rewrite orb_false_r.
  destruct (includes "claude-opus-4-6" (toLowerCase m)) eqn:H3; [|reflexivity].
  apply (includes_append_l "claude-opus-4" "-6") in H3. congruence.
Qed.

Lemma isClaudeThinkingModel_six (m : string) :
  mentions "claude-opus-4" m = false ->
  isClaudeThinkingModel (VStr m)
  = Some (mentions "claude-3-5-sonnet" m || mentions "claude-3.5-sonnet" m
          || mentions "claude-3-7-sonnet" m || mentions "claude-3.7-sonnet" m
          || mentions "claude-4" m || mentions "claude-sonnet-4" m).
Proof.
  unfold isClaudeThinkingModel, matches_patterns, CLAUDE_THINKING_PATTERNS,
    mentions.
  intros H. cbn [existsb]. rewrite H. f_equal.
  rewrite !orb_false_r. now rewrite !orb_assoc.
Qed.

(** X12: Which mode a model gets when the request has no [thinking]: adaptive
    when the model mentions [claude-opus-4] or [claude-4-opus]; otherwise
    enabled when it mentions one of the six other patterns; otherwise
    none. *)
Theorem injectThinking_mode (body body' : obj) (model : string) :
  obj_get body "thinking" = VUndefined ->
  obj_get body "model" = VStr model ->
  injectThinking body = Some body' ->
  obj_get body' "thinking" =
    if mentions "claude-opus-4" model || mentions "claude-4-opus" model
    then THINKING_ADAPTIVE
    else if mentions "claude-3-5-sonnet" model
            || mentions "claude-3.5-sonnet" model
            || mentions "claude-3-7-sonnet" model
            || mentions "claude-3.7-sonnet" model
            || mentions "claude-4" model
            || mentions "claude-sonnet-4" model
         then THINKING_ENABLED
         else VUndefined.
Proof.
  intros Hth Hmodel. unfold injectThinking. rewrite Hth, Hmodel.
  cbn [is_undefined negb truthy].
  destruct (String.eqb_spec model "") as [->|Hne]; cbn [negb].
  - intros [= <-]. exact Hth.
  - rewrite isClaude46Model_two. cbn [bind].
    destruct (mentions "claude-opus-4" model) eqn:H1; cbn [orb].
    + intros [= <-]. apply obj_get_set_same.
    + destruct (mentions "claude-4-opus" model) eqn:H2.
      * intros [= <-]. apply obj_get_set_same.
      * rewrite (isClaudeThinkingModel_six model H1). cbn [bind].
        match goal with
        | |- context [if ?c then _ else Some body] => destruct c
        end.
        -- match goal with
           | |- bind ?low _ = _ -> _ => destruct low as [[]|]
           end; cbn [bind]; [| |discriminate]; intros [= <-].
           ++ rewrite obj_get_set_other by discriminate.
              apply obj_get_set_same.
           ++ apply obj_get_set_same.
        -- intros [= <-]. exact Hth.
Qed.

(** X13: Injecting into a body that went through the injection changes
    nothing. *)
Theorem injectThinking_idempotent (body body' : obj) :
  injectThinking body = Some body' -> injectThinking body' = Some body'.
Proof.
  intros H.
  assert (Hdone : obj_get body' "thinking" <> VUndefined ->
                  injectThinking body' = Some body').
  { intros Hth. unfold injectThinking.
    destruct (obj_get body' "thinking"); try reflexivity. contradiction. }
  pose proof H as H0. unfold injectThinking in H.
  destruct (negb (is_undefined _)); [now injection H as <-|].
  destruct (negb (truthy _)); [now injection H as <-|].
  destruct (isClaude46Model _) as [[]|]; cbn [bind] in H; try discriminate.
  - injection H as <-. apply Hdone. rewrite obj_get_set_same. discriminate.
  - destruct (isClaudeThinkingModel _) as [[]|]; cbn [bind] in H;
      try discriminate; [|now injection H as <-].
    match type of H with
    | bind ?low _ = _ => destruct low as [[]|]
    end; cbn [bind] in H; try discriminate; injection H as <-; apply Hdone.
    + rewrite obj_get_set_other by discriminate. rewrite obj_get_set_same.
      discriminate.
    + rewrite obj_get_set_same. discriminate.
Qed.

(** X14: What the injection can do to [max_tokens] and to the rest of the body:
    every field but [thinking] and [max_tokens] keeps its value, and
    [max_tokens] either keeps its value or becomes 14096, the latter only
    together with the enabled mode and never from a number that is already
    14096 or more. *)
Theorem injectThinking_max_tokens (body body' : obj) :
  injectThinking body = Some body' ->
  (forall k, k <> "thinking" -> k <> "max_tokens" ->
             obj_get body' k = obj_get body k)
  /\ (obj_get body' "max_tokens" = obj_get body "max_tokens"
      \/ (obj_get body' "max_tokens" = VNum 14096
          /\ obj_get body' "thinking" = THINKING_ENABLED
          /\ forall n, obj_get body "max_tokens" = VNum n -> (n < 14096)%Z)).
Proof.
  intros H. split; [intros k; now apply injectThinking_frame|].
  unfold injectThinking in H.
  destruct (negb (is_undefined _)); [injection H as <-; now left|].
  destruct (negb (truthy _)); [injection H as <-; now left|].
  destruct (isClaude46Model _) as [[]|]; cbn [bind] in H; try discriminate.
  - injection H as <-. left. apply obj_get_set_other. discriminate.
  - destruct (isClaudeThinkingModel _) as [[]|]; cbn [bind] in H;
      try discriminate; [|injection H as <-; now left].
    rewrite (obj_get_set_other body "thinking" "max_tokens") in H
      by discriminate.
    destruct (obj_get body "max_tokens") as [| | |n| | | |] eqn:Hmax;
      cbn [truthy negb js_lt bind] in H.
    all: try (match type of H with
              | bind ?low _ = _ => destruct low as [[]|] eqn:Hlow
              | (if ?c then _ else _) = _ => destruct c eqn:Hlow
              end; cbn [bind] in H); try discriminate.
    all: try (injection H as <-).
    all: try (left; rewrite ?obj_get_set_other by discriminate; exact Hmax).
    all: right; split; [apply obj_get_set_same|];
      (split; [rewrite obj_get_set_other by discriminate;
               apply obj_get_set_same|]);
      intros n0 Hn0; try discriminate Hn0.
    injection Hn0 as <-.
    destruct (Z.eqb_spec n 0) as [->|Hz]; [reflexivity|].
    cbn [negb] in Hlow. injection Hlow as Hlow. now apply Z.ltb_lt.
Qed.


(** ** The system prompt *)

Lemma findIndex_user_found (messages : list value) (i : nat) :
  findIndex_user messages = Some (Some i) ->
  exists before m after,
    messages = (before ++ VObj m :: after)%list
    /\ List.length before = i
    /\ Forall not_user before
    /\ obj_get m "role" = VStr "user".
Proof.
  revert i. induction messages as [|x messages IH]; intros i H;
    [discriminate|].
  cbn [findIndex_user] in H.
  destruct (get_prop x "role") as [role|] eqn:Hr; [cbn [bind] in H|discriminate].
  destruct (is_str role "user") eqn:Hu.
  - injection H as <-. apply is_str_true in Hu. subst role.
    destruct x as [| | | | | |m|]; try discriminate Hr.
    exists [], m, messages. repeat split; [constructor|].
    cbn [get_prop] in Hr. congruence.
  - destruct (findIndex_user messages) as [[j|]|]; cbn [bind option_map] in H;
      try discriminate.
    injection H as <-.
    destruct (IH j eq_refl) as (before & m & after & -> & Hlen & Hb & Hrole).
    exists (x :: before), m, after. repeat split.
    + cbn [List.length]. now rewrite Hlen.
    + constructor; [now exists role | exact Hb].
    + exact Hrole.
Qed.

Lemma prepend_system_same_but (cs : string) (msg : value) :
  same_but "content" msg (prepend_system cs msg).
Proof.
  unfold prepend_system. destruct msg as [| | | | | |m|]; try now left.
  destruct (obj_get m "content") eqn:Hc; try now left.
  - right. eexists m, _. repeat split.
    apply obj_get_present. rewrite Hc. discriminate.
  - right. eexists m, _. repeat split.
    apply obj_get_present. rewrite Hc. discriminate.
Qed.

(** X15: What the system substitution can do besides writing [system]: every
    field but [system] and [messages] keeps its value, and [messages]
    either keeps its value or has exactly one message changed, the first
    one whose role is ["user"], in its [content] only. *)
Theorem injectSystemPrompt_touches_one_message (body body' : obj) :
  injectSystemPrompt body = Some body' ->
  (forall k, k <> "system" -> k <> "messages" ->
             obj_get body' k = obj_get body k)
  /\ (obj_get body' "messages" = obj_get body "messages"
      \/ exists before m after m',
           obj_get body "messages" = VArr (before ++ VObj m :: after)%list
           /\ obj_get body' "messages" = VArr (before ++ m' :: after)%list
           /\ Forall not_user before
           /\ obj_get m "role" = VStr "user"
           /\ same_but "content" (VObj m) m').
Proof.
  intros H. split; [intros k; now apply injectSystemPrompt_frame|].
  unfold injectSystemPrompt in H.
  destruct (clientSystem_of body) as [cs|]; [cbn [bind] in H | discriminate].
  rewrite system_then_messages in H.
  assert (Hsame : obj_get (obj_set body "system" CLAUDE_CODE_SYSTEM) "messages"
                  = obj_get body "messages") by apply system_then_messages.
  destruct cs; try (injection H as <-; now left).
  destruct (obj_get body "messages") as [| | | | |messages| |] eqn:Hm;
    try (injection H as <-; now left).
  destruct (truthy (VStr s)); [|injection H as <-; now left].
  destruct (findIndex_user messages) as [[i|]|] eqn:Hi; cbn [bind] in H;
    [|injection H as <-; now left | discriminate].
  injection H as <-. right.
  destruct (findIndex_user_found messages i Hi)
    as (before & m & after & -> & <- & Hb & Hrole).
  exists before, m, after, (prepend_system s (VObj m)).
  repeat split; try assumption.
  - rewrite obj_get_set_same. now rewrite update_nth_middle.
  - apply prepend_system_same_but.
Qed.

Lemma filterM_segment_texts (segments : list value) :
  Forall typed_segment segments ->
  exists kept,
    filterM is_text_segment segments = Some kept
    /\ map (fun s => get_opt s "text") kept
       = map VStr (segment_texts segments).
Proof.
  induction 1 as [|seg segments (o & -> & Htext) _ (kept & Hk & Hmap)].
  - now exists [].
  - cbn [filterM]. unfold is_text_segment at 1. cbn [get_prop get_opt bind].
    rewrite Hk. cbn [bind]. unfold segment_texts. cbn [flat_map get_opt].
    fold (segment_texts segments).
    destruct (is_str (obj_get o "type") "text"); cbn [andb];
      [|now exists kept].
    destruct Htext as [Ht|(t & Ht)]; rewrite Ht; [now exists kept|].
    cbn [truthy]. destruct t as [|c t]; [now exists kept|].
    cbn [String.eqb negb]. eexists. split; [reflexivity|].
    cbn [map app get_opt]. now rewrite Ht, Hmap.
Qed.

Lemma mapM_join_item_strings (texts : list string) :
  mapM join_item (map VStr texts) = Some texts.
Proof.
  induction texts as [|t texts IH]; [reflexivity|].
  cbn [map mapM join_item bind]. now rewrite IH.
Qed.

(** X16: The text captured from a [system] array of typed segments: the
    non-empty texts of its segments of type ["text"], in order, separated
    by a blank line; nothing when there is none. *)
Theorem clientSystem_of_segments (body : obj) (segments : list value) :
  obj_get body "system" = VArr segments ->
  Forall typed_segment segments ->
  clientSystem_of body =
    Some match segment_texts segments with
         | [] => VNull
         | texts => VStr (join_strings (LF ++ LF) texts)
         end.
Proof.
  intros Hsys Hseg. unfold clientSystem_of. rewrite Hsys. cbn [truthy].
  destruct (filterM_segment_texts segments Hseg) as (kept & -> & Hmap).
  cbn [bind]. rewrite Hmap.
  destruct (segment_texts segments) as [|t texts]; [reflexivity|].
  cbn [map]. unfold join.
  change (VStr t :: map VStr texts) with (map VStr (t :: texts)).
  now rewrite mapM_join_item_strings.
Qed.


(** ** The relay *)


Lemma find_sep_eq (sep s before after : string) :
  find_sep sep s = Some (before, after) -> s = before ++ sep ++ after.
Proof.
  revert before. induction s as [|c s IH]; intros before; cbn [find_sep].
  - destruct (prefix sep "") eqn:Hp; [|discriminate]. intros [= <- <-].
    destruct sep; [reflexivity | discriminate].
  - destruct (prefix sep (String c s)) eqn:Hp.
    + intros [= <- <-]. destruct (prefix_split _ _ Hp) as (rest & Hrest).
      rewrite Hrest at 1. cbn [append]. f_equal.
      rewrite Hrest. clear. induction sep; [reflexivity | exact IHsep].
    + destruct (find_sep sep s) as [[b a]|]; [|discriminate].
      intros [= <- <-]. cbn [append]. f_equal. now apply IH.
Qed.




(** Joining the parts of a split with the separator gives the text
    back. *)
Lemma join_split (sep s : string) :
  sep <> "" -> join_strings sep (split sep s) = s.
Proof.
  intros Hsep. remember (length s) as n eqn:Hn. revert s Hn.
  induction n as [n IH] using lt_wf_ind. intros s ->.
  rewrite (split_unfold sep s Hsep).
  destruct (find_sep sep s) as [[b a]|] eqn:Hf; [|reflexivity].
  pose proof (find_sep_length _ _ _ _ Hf) as Hl.
  assert (0 < length sep) by (destruct sep; [contradiction | simpl; lia]).
  pose proof (split_nonempty sep a) as Hne.
  cbn [join_strings]. destruct (split sep a) as [|x l] eqn:Hs;
    [contradiction|].
  rewrite <- Hs, (IH (length a) ltac:(lia) a eq_refl).
  symmetry. now apply find_sep_eq.
Qed.

Lemma join_strings_closed (sep : string) (l : list string) :
  join_strings sep (l ++ [""])%list
  = whole (map (fun part => part ++ sep) l).
Proof.
  induction l as [|x l IH]; [reflexivity|].
  cbn [app map whole fold_right]. fold (whole (map (fun part => part ++ sep) l)).
  rewrite <- IH, append_assoc. cbn [join_strings].
  destruct (l ++ [""])%list eqn:Hl; [|reflexivity].
  apply app_eq_nil in Hl. destruct Hl; discriminate.
Qed.

(** X17: The writes for any delivery of a text are the writes for its delivery
    in one piece. *)
Theorem relay_text_any_cut (texts : list string) :
  relay_text texts = relay_text [whole texts].
Proof.
  rewrite !relay_text_whole. cbn [whole fold_right]. now rewrite append_nil_r.
Qed.


(** X19: A stream that ends with a blank line and in which the line rewrite
    changes no line is written to the client exactly as it came. *)
Theorem relay_text_transparent (texts : list string) :
  last (split (LF ++ LF) (whole texts)) "" = "" ->
  Forall (fun part =>
            Forall (fun line => transformSSELine line = line) (split LF part))
         (split (LF ++ LF) (whole texts)) ->
  whole (relay_text texts) = whole texts.
Proof.
  intros Hlast Hlines. rewrite relay_text_whole.
  unfold finish, relay_after. cbn [buffer written]. rewrite Hlast.
  cbn [negb]. change (trim "" =? "") with true. cbn [negb].
  assert (Hsep : LF ++ LF <> "") by discriminate.
  pose proof (join_split (LF ++ LF) (whole texts) Hsep) as Hjoin.
  pose proof (split_nonempty (LF ++ LF) (whole texts)) as Hne.
  rewrite (app_removelast_last "" Hne) in Hjoin, Hlines.
  rewrite Hlast in Hjoin, Hlines. rewrite join_strings_closed in Hjoin.
  rewrite <- Hjoin at 2. f_equal.
  apply Forall_app in Hlines. destruct Hlines as [Hlines _].
  clear -Hlines.
  induction Hlines as [|part parts Hpart _ IH]; [reflexivity|].
  cbn [map]. f_equal; [|exact IH].
  unfold transformEvent.
  replace (map transformSSELine (split LF part)) with (split LF part).
  - rewrite join_split by discriminate. reflexivity.
  - clear -Hpart. induction Hpart as [|line lines Hline _ IH]; [reflexivity|].
    cbn [map]. now rewrite Hline, <- IH.
Qed.


(** ** The request pipeline *)

Lemma transformRequestBody_get (b : obj) (out : value) :
  transformRequestBody (VObj b) = Some out ->
  exists b',
    out = VObj b'
    /\ (forall k, k <> "tools" -> k <> "messages" ->
                  obj_get b' k = obj_get b k)
    /\ obj_get b' "messages"
       = match obj_get b "messages" with
         | VArr messages => VArr (map transformMessage messages)
         | other => other
         end.
Proof.
  intros Hrun.
  destruct (transformRequestBody_messages b out Hrun) as (b1 & Hb1 & ->).
  eexists. split; [reflexivity|].
  assert (H1 : forall k, k <> "tools" -> obj_get b1 k = obj_get b k).
  { destruct Hb1 as [->|(tools & tools' & _ & ->)]; [reflexivity|].
    intros k Hk. apply obj_get_set_other. congruence. }
  destruct (obj_get b "messages") as [| | | | |messages| |] eqn:Hm;
    try (split; [intros k Hk _; now apply H1
                | rewrite H1 by discriminate; exact Hm]).
  split; [|apply obj_get_set_same].
  intros k Hk1 Hk2. rewrite obj_get_set_other by congruence. now apply H1.
Qed.


Lemma cleanUndefined_nullish (v : value) :
  is_nullish (cleanUndefined v) -> is_nullish v.
Proof.
  destruct v; cbn [cleanUndefined]; try exact (fun H => H);
    intros [H|H]; discriminate.
Qed.

Lemma cleanUndefined_array_only (v : value) (items : list value) :
  cleanUndefined v = VArr items -> exists items0, v = VArr items0.
Proof.
  destruct v; try discriminate; intros _; now eexists.
Qed.

Lemma cleaned_field_array (body : obj) (k : string) (items : list value) :
  cleaned_field body k = VArr items ->
  exists items0,
    obj_get body k = VArr items0
    /\ items = map cleanUndefined (filter keep_item items0).
Proof.
  unfold cleaned_field.
  destruct (is_str (obj_get body k) UNDEFINED_MARK); [discriminate|].
  intros H. destruct (cleanUndefined_array_only _ _ H) as (items0 & H0).
  exists items0. split; [exact H0|].
  rewrite H0, cleanUndefined_array in H. now injection H.
Qed.

Lemma transformRequestBody_returns (b : obj) :
  (forall tools, obj_get b "tools" = VArr tools ->
                 Forall (fun tool => ~ is_nullish tool) tools) ->
  exists out, transformRequestBody (VObj b) = Some out.
Proof.
  intros Htools. cbn [transformRequestBody].
  destruct (obj_get b "tools") as [| | | | |tools| |] eqn:Ht;
    try now eexists.
  destruct (mapM transformTool tools) as [tools'|] eqn:Hm; [now eexists|].
  exfalso. apply mapM_None in Hm. apply Exists_exists in Hm.
  destruct Hm as (x & Hin & Hx). apply transformTool_None in Hx.
  specialize (Htools tools eq_refl). rewrite Forall_forall in Htools.
  now apply (Htools x Hin).
Qed.

Lemma injectSystemPrompt_returns (body : obj) :
  system_shape (obj_get body "system") ->
  message_list (obj_get body "messages") ->
  exists body', injectSystemPrompt body = Some body'.
Proof.
  intros Hsys Hmsgs. unfold injectSystemPrompt.
  destruct (clientSystem_of_returns body Hsys) as (cs & ->). cbn [bind].
  rewrite system_then_messages.
  destruct cs; try now eexists.
  destruct (obj_get body "messages") as [| | | | |ms| |] eqn:Hm;
    try now eexists.
  destruct (truthy (VStr s)); [|now eexists].
  destruct (findIndex_user_returns ms (Hmsgs ms eq_refl)) as (idx & ->).
  cbn [bind]. destruct idx; now eexists.
Qed.

Lemma injectThinking_returns (body : obj) :
  obj_get body "model" = VUndefined
  \/ (exists model, obj_get body "model" = VStr model) ->
  obj_get body "max_tokens" = VUndefined
  \/ (exists n, obj_get body "max_tokens" = VNum n) ->
  exists body', injectThinking body = Some body'.
Proof.
  intros Hmodel Hmax. unfold injectThinking.
  destruct (negb (is_undefined _)); [now eexists|].
  destruct Hmodel as [->|(model & ->)]; [now eexists|].
  destruct (negb (truthy (VStr model))); [now eexists|].
  unfold isClaude46Model, isClaudeThinkingModel, matches_patterns.
  cbn [bind]. destruct (existsb _ CLAUDE_46_PATTERNS); [now eexists|].
  destruct (existsb _ CLAUDE_THINKING_PATTERNS); [|now eexists].
  rewrite (obj_get_set_other body "thinking" "max_tokens") by discriminate.
  destruct Hmax as [->|(n & ->)]; cbn [truthy negb js_lt bind];
    [now eexists|].
  destruct (negb (negb (n =? 0)%Z)); cbn [bind]; now eexists.
Qed.

Lemma cleaned_segments_typed (segments : list value) :
  Forall plain_json segments -> Forall typed_segment segments ->
  Forall typed_segment (map cleanUndefined (filter keep_item segments)).
Proof.
  intros Hplain Hseg.
  induction Hseg as [|seg segments (o & -> & Htext) _ IH]; [constructor|].
  inversion Hplain as [|? ? Hj Hplain']; subst.
  cbn [filter keep_item is_str negb map]. constructor; [|now apply IH].
  inversion Hj as [| | | | |? Hnd _ _]; subst.
  rewrite cleanUndefined_object_distinct by exact Hnd.
  exists (clean_props o). split; [reflexivity|].
  rewrite (obj_get_clean_props o "text" Hnd).
  destruct Htext as [->|(t & ->)]; [now left|].
  cbn [is_str cleanUndefined].
  destruct (t =? UNDEFINED_MARK); [now left | right; now exists t].
Qed.

Lemma cleaned_messages_objects (messages : list value) :
  Forall is_object messages ->
  Forall is_object
    (map transformMessage (map cleanUndefined (filter keep_item messages))).
Proof.
  induction 1 as [|m messages (o & ->) _ IH]; [constructor|].
  cbn [filter keep_item is_str negb map]. constructor; [|exact IH].
  cbn [cleanUndefined transformMessage].
  match goal with
  | |- is_object match ?c with _ => _ end => destruct c
  end; now eexists.
Qed.

(** X21: On a typed request the pipeline returns: none of its four steps
    raises. *)
Theorem transformRequest_returns (body : obj) :
  typed_request body ->
  exists out, transformRequest (VObj body) = Some (VObj out).
Proof.
  intros (Hj & Htools & Hsys & Hmsgs & Hmodel & Hmax).
  inversion Hj as [| | | | |? Hnd _ Hprops]; subst.
  assert (Hfield : forall k, obj_get (clean_props body) k = cleaned_field body k)
    by (intros k; now apply obj_get_clean_props).
  unfold transformRequest.
  rewrite cleanUndefined_object_distinct by exact Hnd.
  (* the tool loop *)
  destruct (transformRequestBody_returns (clean_props body)) as (tr & Htr).
  { intros tools Ht. rewrite Hfield in Ht.
    destruct (cleaned_field_array _ _ _ Ht) as (tools0 & Ht0 & ->).
    apply Forall_forall. intros y Hy Hnull.
    apply in_map_iff in Hy. destruct Hy as (x & <- & Hx).
    apply filter_In in Hx. destruct Hx as [Hx _].
    apply cleanUndefined_nullish in Hnull.
    specialize (Htools tools0 Ht0). rewrite Forall_forall in Htools.
    destruct Hnull as [->| ->]; [now apply (Htools VNull Hx)|].
    destruct (obj_get_plain body "tools" Hprops) as [Hu|Hp]; [congruence|].
    rewrite Ht0 in Hp. inversion Hp as [| | | |? Hall|]; subst.
    rewrite Forall_forall in Hall. specialize (Hall VUndefined Hx).
    inversion Hall. }
  rewrite Htr. cbn [bind].
  destruct (transformRequestBody_get _ _ Htr) as (b' & -> & Hget & Hm').
  (* the system prompt *)
  destruct (injectSystemPrompt_returns b') as (b1 & H1).
  { rewrite (Hget "system") by discriminate. rewrite Hfield.
    unfold cleaned_field.
    destruct Hsys as [Hs|[(s & Hs)|(segments & Hs & Hseg)]]; rewrite Hs;
      cbn [is_str].
    - now left.
    - destruct (s =? UNDEFINED_MARK); [now left | right; left; now exists s].
    - right; right. rewrite cleanUndefined_array. eexists. split; [reflexivity|].
      apply cleaned_segments_typed; [|exact Hseg].
      destruct (obj_get_plain body "system" Hprops) as [Hu|Hp]; [congruence|].
      rewrite Hs in Hp. now inversion Hp. }
  { intros ms Hms. rewrite Hm', Hfield in Hms.
    destruct (cleaned_field body "messages") as [| | | | |cms| |] eqn:Hc;
      try discriminate.
    injection Hms as <-.
    destruct (cleaned_field_array _ _ _ Hc) as (ms0 & Hms0 & ->).
    apply cleaned_messages_objects. now apply Hmsgs. }
  rewrite H1. cbn [bind].
  (* the thinking parameter *)
  destruct (injectThinking_returns b1) as (b2 & H2).
  { rewrite (injectSystemPrompt_frame _ _ "model" H1) by discriminate.
    rewrite (Hget "model") by discriminate. rewrite Hfield.
    unfold cleaned_field.
    destruct Hmodel as [->|(m & ->)]; cbn [is_str]; [now left|].
    destruct (m =? UNDEFINED_MARK); [now left | right; now exists m]. }
  { rewrite (injectSystemPrompt_frame _ _ "max_tokens" H1) by discriminate.
    rewrite (Hget "max_tokens") by discriminate. rewrite Hfield.
    unfold cleaned_field.
    destruct Hmax as [->|(n & ->)]; cbn [is_str]; [now left|].
    right; now exists n. }
  rewrite H2. cbn [bind]. now exists b2.
Qed.


(** ** The two augmenters together *)

Lemma apply_writes_other (writes : list (string * value)) (o : obj) (k : string) :
  Forall (fun kv => fst kv <> k) writes ->
  obj_get (apply_writes o writes) k = obj_get o k.
Proof.
  unfold apply_writes. revert o.
  induction writes as [|[k' v] writes IH]; intros o H; [reflexivity|].
  inversion H as [|? ? Hk H']; subst. cbn [fold_left fst snd] in *.
  rewrite (IH _ H'). now apply obj_get_set_other.
Qed.

(** Writes depend on the object only through the values read; so equal
    reads give the same writes. *)
Lemma apply_writes_get (writes : list (string * value)) (o o' : obj) (k : string) :
  obj_get o k = obj_get o' k ->
  obj_get (apply_writes o writes) k = obj_get (apply_writes o' writes) k.
Proof.
  unfold apply_writes. revert o o'.
  induction writes as [|[k' v] writes IH]; intros o o' H; [exact H|].
  cbn [fold_left fst snd]. apply IH.
  destruct (string_dec k' k) as [->|Hne].
  - now rewrite !obj_get_set_same.
  - now rewrite !obj_get_set_other.
Qed.

Lemma injectThinking_writes (b b' : obj) :
  obj_get b' "thinking" = obj_get b "thinking" ->
  obj_get b' "model" = obj_get b "model" ->
  obj_get b' "max_tokens" = obj_get b "max_tokens" ->
  forall r, injectThinking b = Some r ->
  exists writes,
    r = apply_writes b writes
    /\ injectThinking b' = Some (apply_writes b' writes)
    /\ Forall (fun kv => fst kv = "thinking" \/ fst kv = "max_tokens") writes.
Proof.
  intros Hth Hmodel Hmax r. unfold injectThinking.
  rewrite Hth, Hmodel.
  rewrite !(obj_get_set_other _ "thinking" "max_tokens") by discriminate.
  rewrite Hmax.
  destruct (negb (is_undefined _));
    [intros [= <-]; exists []; now repeat split|].
  destruct (negb (truthy _)); [intros [= <-]; exists []; now repeat split|].
  destruct (isClaude46Model _) as [[]|]; cbn [bind]; try discriminate.
  - intros [= <-]. exists [("thinking", THINKING_ADAPTIVE)].
    repeat split. constructor; [now left | constructor].
  - destruct (isClaudeThinkingModel _) as [[]|]; cbn [bind];
      try discriminate; [|intros [= <-]; exists []; now repeat split].
    match goal with
    | |- bind ?low _ = _ -> _ => destruct low as [[]|]
    end; cbn [bind]; try discriminate; intros [= <-].
    + exists [("thinking", THINKING_ENABLED);
              ("max_tokens", VNum (DEFAULT_THINKING_BUDGET + 4096))].
      repeat split. constructor; [now left|].
      constructor; [now right | constructor].
    + exists [("thinking", THINKING_ENABLED)].
      repeat split. constructor; [now left | constructor].
Qed.

Lemma clientSystem_of_reads (b b' : obj) :
  obj_get b' "system" = obj_get b "system" ->
  clientSystem_of b' = clientSystem_of b.
Proof. intros H. unfold clientSystem_of. now rewrite H. Qed.

Lemma injectSystemPrompt_writes (b b' : obj) :
  obj_get b' "system" = obj_get b "system" ->
  obj_get b' "messages" = obj_get b "messages" ->
  forall r, injectSystemPrompt b = Some r ->
  exists writes,
    r = apply_writes b writes
    /\ injectSystemPrompt b' = Some (apply_writes b' writes)
    /\ Forall (fun kv => fst kv = "system" \/ fst kv = "messages") writes.
Proof.
  intros Hsys Hmsgs r. unfold injectSystemPrompt.
  rewrite (clientSystem_of_reads b b' Hsys), !system_then_messages, Hmsgs.
  destruct (clientSystem_of b) as [cs|]; cbn [bind]; [|discriminate].
  assert (Hone : exists writes,
             obj_set b "system" CLAUDE_CODE_SYSTEM = apply_writes b writes
             /\ Some (obj_set b' "system" CLAUDE_CODE_SYSTEM)
                = Some (apply_writes b' writes)
             /\ Forall (fun kv => fst kv = "system" \/ fst kv = "messages")
                       writes).
  { exists [("system", CLAUDE_CODE_SYSTEM)]. repeat split.
    constructor; [now left | constructor]. }
  destruct cs; try (intros [= <-]; exact Hone).
  destruct (obj_get b "messages") as [| | | | |messages| |];
    try (intros [= <-]; exact Hone).
  destruct (truthy (VStr s)); [|intros [= <-]; exact Hone].
  destruct (findIndex_user messages) as [[i|]|]; cbn [bind];
    [|intros [= <-]; exact Hone | discriminate].
  intros [= <-].
  exists [("system", CLAUDE_CODE_SYSTEM);
          ("messages", VArr (update_nth i (prepend_system s) messages))].
  repeat split. constructor; [now left|].
  constructor; [now right | constructor].
Qed.

Lemma disjoint_writes_get (o : obj) (ws ws' : list (string * value)) (k : string) :
  (forall kv kv', In kv ws -> In kv' ws' -> fst kv <> fst kv') ->
  obj_get (apply_writes (apply_writes o ws) ws') k
  = obj_get (apply_writes (apply_writes o ws') ws) k.
Proof.
  intros Hdis.
  destruct (Forall_dec (fun kv : string * value => fst kv <> k)
              (fun kv => match string_dec (fst kv) k with
                         | left e => right (fun H => H e)
                         | right n => left n
                         end) ws') as [Hws'|Hws'].
  - rewrite (apply_writes_other ws' _ k Hws').
    apply apply_writes_get. symmetry. now apply apply_writes_other.
  - assert (Hws : Forall (fun kv => fst kv <> k) ws).
    { apply Forall_forall. intros kv Hin Heq.
      apply Hws'. apply Forall_forall. intros kv' Hin' Heq'.
      apply (Hdis kv kv' Hin Hin'). congruence. }
    rewrite (apply_writes_other ws _ k Hws).
    apply apply_writes_get. now apply apply_writes_other.
Qed.

(** X22: The two augmenters can run in either order: both orders return, and
    every field reads the same afterwards (the order in which new keys are
    appended apart). *)
Theorem augmenters_commute (b b1 b2 : obj) :
  injectSystemPrompt b = Some b1 -> injectThinking b1 = Some b2 ->
  exists b1' b2',
    injectThinking b = Some b1'
    /\ injectSystemPrompt b1' = Some b2'
    /\ forall k, obj_get b2' k = obj_get b2 k.
Proof.
  intros H1 H2.
  assert (Hframe : forall k, k <> "system" -> k <> "messages" ->
                             obj_get b k = obj_get b1 k).
  { intros k Hs Hm. symmetry. now apply (injectSystemPrompt_frame b b1). }
  destruct (injectThinking_writes b1 b
              (Hframe "thinking" ltac:(discriminate) ltac:(discriminate))
              (Hframe "model" ltac:(discriminate) ltac:(discriminate))
              (Hframe "max_tokens" ltac:(discriminate) ltac:(discriminate))
              b2 H2) as (wT & -> & HT & HkT).
  assert (Hother : forall k, k <> "thinking" -> k <> "max_tokens" ->
                             obj_get (apply_writes b wT) k = obj_get b k).
  { intros k Ht Hm. apply apply_writes_other.
    apply Forall_forall. intros kv Hin. rewrite Forall_forall in HkT.
    destruct (HkT kv Hin) as [-> | ->]; congruence. }
  destruct (injectSystemPrompt_writes b (apply_writes b wT)
              (Hother "system" ltac:(discriminate) ltac:(discriminate))
              (Hother "messages" ltac:(discriminate) ltac:(discriminate))
              b1 H1) as (wS & -> & HS & HkS).
  exists (apply_writes b wT), (apply_writes (apply_writes b wT) wS).
  split; [exact HT|]. split; [exact HS|].
  intros k. apply disjoint_writes_get.
  intros kv kv' Hin Hin'. rewrite Forall_forall in HkT, HkS.
  destruct (HkT kv Hin) as [-> | ->], (HkS kv' Hin') as [-> | ->];
    discriminate.
Qed.

End Further.

(** * The properties on concrete inputs *)

Import Data.

Ltac distinct_keys :=
  repeat (constructor; [simpl; intuition discriminate|]); constructor.

Ltac plain :=
  repeat first
    [ apply plain_null | apply plain_bool | apply plain_num | apply plain_str
    | apply plain_arr
    | apply plain_obj; [distinct_keys | simpl; intuition discriminate |]
    | apply Forall_nil
    | apply Forall_cons; cbn [snd] ].

(** *** The sanitiser *)

Lemma cleanUndefined_marked_tree :
  cleanUndefined marked_tree
  = VObj [("b", VArr [VNum 1; VObj [("d", VStr "x")]])].
Proof. reflexivity. Qed.

Lemma cleanUndefined_prunes_marked_tree :
  contains_mark (cleanUndefined marked_tree) = false
  /\ Pruned marked_tree (cleanUndefined marked_tree).
Proof.
  apply cleanUndefined_prunes; [unfold marked_tree; plain | discriminate].
Defined.

(** C1 as stated fails on the tree that is the marker alone: it is a
    scalar, and scalars are returned as they are. *)
Lemma cleanUndefined_keeps_bare_mark :
  plain_json (VStr UNDEFINED_MARK)
  /\ cleanUndefined (VStr UNDEFINED_MARK) = VStr UNDEFINED_MARK
  /\ contains_mark (cleanUndefined (VStr UNDEFINED_MARK)) = true.
Proof. split; [constructor | split; reflexivity]. Qed.

(** *** The name map *)

Lemma sample_case_mapping_settles : @case_mapping_settles Sample.platform.
Proof.
  intros c rest Hc. cbn [capitalize_nonascii Sample.platform].
  unfold settled. now rewrite Hc.
Qed.

Lemma mapName_idempotent_todowrite :
  @mapName Sample.platform (@mapName Sample.platform (VStr "todowrite"))
  = @mapName Sample.platform (VStr "todowrite").
Proof.
  apply (@mapName_idempotent Sample.platform).
  exact sample_case_mapping_settles.
Defined.

(** *** The response repair *)

Lemma transformResponseBody_repairs_args :
  @transformResponseBody Sample.platform (tool_use_response (VStr "[1,2,3]"))
  = tool_use_response (VArr [VNum 1; VNum 2; VNum 3]).
Proof.
  apply (proj1 (proj2 (proj2 (@transformResponseBody_repairs Sample.platform)))).
  reflexivity.
Defined.

(** *** One line of the event stream *)

Lemma transformSSELine_renames_todowrite :
  exists d cb,
    tool_start "todowrite" = VObj d /\ obj_get d "content_block" = VObj cb
    /\ @transformSSELine Sample.platform (tool_start_line "todowrite")
       = "data: " ++
         @JSON_stringify Sample.platform
           (VObj (obj_set d "content_block"
                    (VObj (obj_set cb "name"
                             (@mapName Sample.platform (obj_get cb "name")))))).
Proof.
  apply (proj2 (proj2 (proj2 (proj2
           (@transformSSELine_cases Sample.platform
              (tool_start_line "todowrite")))))).
  - reflexivity.
  - vm_compute. discriminate.
  - vm_compute. discriminate.
  - vm_compute. reflexivity.
  - repeat split; reflexivity.
Defined.

Lemma transformSSELine_todowrite :
  @transformSSELine Sample.platform (tool_start_line "todowrite")
  = tool_start_line "TodoWrite".
Proof. vm_compute. reflexivity. Qed.

(** *** The system prompt *)

Lemma injectSystemPrompt_system_be_terse :
  exists body',
    @injectSystemPrompt Sample.platform be_terse = Some body'
    /\ obj_get body' "system" = CLAUDE_CODE_SYSTEM.
Proof.
  destruct (@injectSystemPrompt_system Sample.platform be_terse)
    as [Hsystem Hreturns].
  destruct Hreturns as (body' & Hrun).
  - right; left. now exists "Be terse".
  - intros ms [= <-]. repeat constructor. now exists user_hello.
  - exists body'. split; [exact Hrun | now apply Hsystem].
Defined.


(** *** The thinking parameter *)

Lemma injectThinking_enabled_sonnet :
  exists body' n',
    @injectThinking Sample.platform sonnet_small = Some body'
    /\ obj_get body' "thinking"
       = VObj [("type", VStr "enabled"); ("budget_tokens", VNum 10000)]
    /\ obj_get body' "max_tokens" = VNum n'
    /\ (14096 <= n')%Z
    /\ (obj_get sonnet_small "max_tokens" = VUndefined -> n' = 14096%Z)
    /\ (forall n, obj_get sonnet_small "max_tokens" = VNum n ->
                  n' = Z.max n 14096)
    /\ (forall k, k <> "thinking" -> k <> "max_tokens" ->
                  obj_get body' k = obj_get sonnet_small k).
Proof.
  apply (proj2 (@injectThinking_enabled Sample.platform sonnet_small)
               "Claude-3-7-Sonnet-20250219");
    try reflexivity.
  right. now exists 1024%Z.
Defined.

(** C5 as stated fails on a model identifier that also matches an adaptive
    pattern: those are tried first. *)
Lemma injectThinking_adaptive_first :
  obj_get two_families "thinking" = VUndefined
  /\ (exists model,
         obj_get two_families "model" = VStr model
         /\ includes "claude-3-7-sonnet" (toLowerCase model) = true)
  /\ (exists body',
         @injectThinking Sample.platform two_families = Some body'
         /\ obj_get body' "thinking" = VObj [("type", VStr "adaptive")]
         /\ obj_get body' "max_tokens" = VNum 1024).
Proof.
  split; [reflexivity|]. split.
  - eexists. split; reflexivity.
  - eexists. split; [reflexivity|]. split; reflexivity.
Qed.

(** *** The request pipeline *)

Lemma transformRequest_tools_request :
  @transformRequest Sample.platform (VObj tools_request) = Some tools_result.
Proof. vm_compute. reflexivity. Qed.

Lemma builtin_tool_names_kept_web_search :
  exists tools',
    get_opt tools_result "tools" = VArr tools'
    /\ Forall2
         (fun tool tool' =>
            builtin_descriptor tool ->
            contains_mark (get_opt tool "name") = false ->
            get_opt tool' "name" = get_opt tool "name")
         (filter keep_item [web_search; VStr "[undefined]"; todowrite]) tools'.
Proof.
  apply (@builtin_tool_names_kept Sample.platform tools_request).
  - unfold tools_request, web_search, todowrite. plain.
  - reflexivity.
  - exact transformRequest_tools_request.
Defined.

(** C4 as stated fails on a builtin descriptor whose name is the marker:
    the sanitiser takes the name out before the tool loop sees it. *)
Lemma builtin_tool_marker_name_removed :
  builtin_descriptor bash_marked
  /\ get_opt bash_marked "name" = VStr "[undefined]"
  /\ exists out tool',
       @transformRequest Sample.platform (VObj bash_request) = Some out
       /\ get_opt out "tools" = VArr [tool']
       /\ get_opt tool' "type" = VStr "bash_20250124"
       /\ get_opt tool' "name" = VUndefined.
Proof.
  split; [|split; [reflexivity|]].
  - exists "bash_20250124". split; reflexivity.
  - eexists _, _. split; [vm_compute; reflexivity|].
    split; [reflexivity|]. split; reflexivity.
Qed.

(** The specification's example: system ["Be terse"], no thinking, a
    claude-3-7-sonnet model and one user message ["hello"]. *)
Lemma transformRequest_be_terse :
  @transformRequest Sample.platform (VObj be_terse)
  = Some (VObj
            [ ("model", VStr "claude-3-7-sonnet-20250219");
              ("system", CLAUDE_CODE_SYSTEM);
              ("messages",
               VArr [VObj [ ("role", VStr "user");
                            ("content",
                             VStr ("[System Instructions]" ++ LF ++ "Be terse"
                                   ++ LF ++ "[End System Instructions]"
                                   ++ LF ++ LF ++ "hello")) ]]);
              ("thinking", THINKING_ENABLED);
              ("max_tokens", VNum 14096) ]).
Proof. vm_compute. reflexivity. Qed.

(** *** The relay *)

Lemma delta_bytes_cut : (delta_head ++ delta_tail)%list = delta_bytes.
Proof. apply firstn_skipn. Qed.

(** C3, on the bytes of one event cut inside a two-byte character: in one
    chunk the event is written as it came; in two chunks each half of the
    character is decoded on its own and the event is written with two
    replacement characters. *)
Theorem relay_cut_inside_character :
  @relay Sample.platform [delta_bytes] = [delta_event]
  /\ @relay Sample.platform [delta_head; delta_tail] = [garbled_event]
  /\ delta_event <> garbled_event.
Proof.
  split; [vm_compute; reflexivity|].
  split; [vm_compute; reflexivity|].
  vm_compute. discriminate.
Qed.

(** ** The further properties on concrete inputs *)

(** *** The sanitiser *)

Lemma cleanUndefined_idempotent_marked_tree :
  cleanUndefined (cleanUndefined marked_tree) = cleanUndefined marked_tree.
Proof. apply cleanUndefined_idempotent. unfold marked_tree. plain. Defined.

Lemma cleanUndefined_keeps_be_terse :
  cleanUndefined (VObj be_terse) = VObj be_terse.
Proof.
  apply cleanUndefined_keeps_clean_tree; [|reflexivity].
  unfold be_terse, user_hello. plain.
Defined.

(** *** The name map *)

Lemma mapName_changes_case_only_my_tool :
  exists r,
    @mapName Sample.platform (VStr "my_tool") = VStr r
    /\ toLowerCase r = toLowerCase "my_tool"
    /\ length r = length "my_tool".
Proof.
  apply (@mapName_changes_case_only Sample.platform "my_tool"); reflexivity.
Defined.

(** *** The request transform *)

Lemma transformRequestBody_agent_request :
  @transformRequestBody Sample.platform (VObj (agent_request "todowrite"))
  = Some (VObj (agent_request "TodoWrite")).
Proof. vm_compute. reflexivity. Qed.

Lemma transformRequestBody_renames_agent_tools :
  exists tools',
    get_opt (VObj (agent_request "TodoWrite")) "tools" = VArr tools'
    /\ Forall2 (@tool_renamed Sample.platform) (agent_tools "todowrite") tools'.
Proof.
  apply (@transformRequestBody_renames_tools Sample.platform
           (agent_request "todowrite"));
    [reflexivity | vm_compute; reflexivity].
Defined.

Lemma transformRequestBody_renames_agent_blocks :
  exists messages',
    get_opt (VObj (agent_request "TodoWrite")) "messages" = VArr messages'
    /\ Forall2 (@message_renamed Sample.platform)
               (agent_turns "todowrite") messages'.
Proof.
  apply (@transformRequestBody_renames_blocks Sample.platform
           (agent_request "todowrite"));
    [reflexivity | vm_compute; reflexivity].
Defined.

Lemma transformRequestBody_frame_agent_request :
  exists b',
    VObj (agent_request "TodoWrite") = VObj b'
    /\ map fst b' = map fst (agent_request "todowrite")
    /\ forall k, k <> "tools" -> k <> "messages" ->
                 obj_get b' k = obj_get (agent_request "todowrite") k.
Proof.
  apply (@transformRequestBody_frame Sample.platform).
  vm_compute. reflexivity.
Defined.

Lemma transformRequestBody_idempotent_agent_request :
  @transformRequestBody Sample.platform (VObj (agent_request "TodoWrite"))
  = Some (VObj (agent_request "TodoWrite")).
Proof.
  apply (@transformRequestBody_idempotent Sample.platform
           (VObj (agent_request "todowrite")));
    [exact sample_case_mapping_settles | vm_compute; reflexivity].
Defined.

(** *** The response repair *)

Lemma transformResponseBody_keeps_text_response :
  @transformResponseBody Sample.platform text_response = text_response.
Proof.
  apply (@transformResponseBody_without_tool_use Sample.platform).
  intros blocks block [= <-] [<-|[]]. discriminate.
Defined.

(** *** The thinking parameter *)

Lemma injectThinking_mode_sonnet :
  exists body',
    @injectThinking Sample.platform sonnet_small = Some body'
    /\ obj_get body' "thinking" = THINKING_ENABLED.
Proof.
  eexists. split; [reflexivity|].
  apply (@injectThinking_mode Sample.platform sonnet_small _
           "Claude-3-7-Sonnet-20250219"); reflexivity.
Defined.

Lemma injectThinking_idempotent_sonnet :
  exists body',
    @injectThinking Sample.platform sonnet_small = Some body'
    /\ @injectThinking Sample.platform body' = Some body'.
Proof.
  eexists. split; [reflexivity|].
  apply (@injectThinking_idempotent Sample.platform sonnet_small).
  reflexivity.
Defined.

Lemma injectThinking_max_tokens_sonnet :
  exists body',
    @injectThinking Sample.platform sonnet_small = Some body'
    /\ (forall k, k <> "thinking" -> k <> "max_tokens" ->
                  obj_get body' k = obj_get sonnet_small k)
    /\ (obj_get body' "max_tokens" = obj_get sonnet_small "max_tokens"
        \/ (obj_get body' "max_tokens" = VNum 14096
            /\ obj_get body' "thinking" = THINKING_ENABLED
            /\ forall n, obj_get sonnet_small "max_tokens" = VNum n ->
                         (n < 14096)%Z)).
Proof.
  eexists. split; [reflexivity|].
  apply (@injectThinking_max_tokens Sample.platform sonnet_small).
  reflexivity.
Defined.

(** *** The system prompt *)

Lemma injectSystemPrompt_touches_user_hello :
  exists body',
    @injectSystemPrompt Sample.platform be_terse_later = Some body'
    /\ (forall k, k <> "system" -> k <> "messages" ->
                  obj_get body' k = obj_get be_terse_later k)
    /\ (obj_get body' "messages" = obj_get be_terse_later "messages"
        \/ exists before m after m',
             obj_get be_terse_later "messages"
             = VArr (before ++ VObj m :: after)%list
             /\ obj_get body' "messages" = VArr (before ++ m' :: after)%list
             /\ Forall not_user before
             /\ obj_get m "role" = VStr "user"
             /\ same_but "content" (VObj m) m').
Proof.
  eexists. split; [reflexivity|].
  apply (@injectSystemPrompt_touches_one_message Sample.platform
           be_terse_later).
  reflexivity.
Defined.

Lemma clientSystem_of_segmented :
  @clientSystem_of Sample.platform segmented
  = Some (VStr ("Be terse" ++ LF ++ LF ++ "Use tools")).
Proof.
  apply (@clientSystem_of_segments Sample.platform segmented _ eq_refl).
  repeat constructor; eexists; (split; [reflexivity|]);
    right; eexists; reflexivity.
Defined.

(** *** The relay *)

Lemma relay_text_transparent_ping_stream :
  whole (@relay_text Sample.platform ping_stream) = whole ping_stream.
Proof.
  apply (@relay_text_transparent Sample.platform ping_stream).
  - vm_compute. reflexivity.
  - assert (H : forallb
                  (fun part =>
                     forallb
                       (fun line =>
                          (@transformSSELine Sample.platform line =? line)%string)
                       (split LF part))
                  (split (LF ++ LF) (whole ping_stream)) = true)
      by (vm_compute; reflexivity).
    apply Forall_forall. intros part Hpart.
    apply Forall_forall. intros line Hline.
    rewrite forallb_forall in H. specialize (H part Hpart).
    rewrite forallb_forall in H. apply String.eqb_eq. exact (H line Hline).
Defined.

Lemma relay_chunking_tool_start :
  @relay Sample.platform tool_start_chunks
  = @relay Sample.platform [List.concat tool_start_chunks].
Proof.
  apply (@relay_chunking_ascii Sample.platform).
  vm_compute. reflexivity.
Defined.

(** *** The request pipeline *)


Lemma transformRequest_returns_be_terse :
  exists out, @transformRequest Sample.platform (VObj be_terse) = Some (VObj out).
Proof.
  apply (@transformRequest_returns Sample.platform).
  split; [unfold be_terse, user_hello; plain|].
  split; [intros tools; discriminate|].
  split; [right; left; now exists "Be terse"|].
  split; [intros ms [= <-]; repeat constructor; now exists user_hello|].
  split; [right; now eexists | now left].
Defined.

Lemma augmenters_commute_sonnet :
  exists b1 b2,
    @injectSystemPrompt Sample.platform sonnet_small = Some b1
    /\ @injectThinking Sample.platform b1 = Some b2
    /\ exists b1' b2',
         @injectThinking Sample.platform sonnet_small = Some b1'
         /\ @injectSystemPrompt Sample.platform b1' = Some b2'
         /\ forall k, obj_get b2' k = obj_get b2 k.
Proof.
  eexists _, _. split; [reflexivity|]. split; [reflexivity|].
  eapply (@augmenters_commute Sample.platform sonnet_small); reflexivity.
Defined.
